(** * compare_tables.py: the cast resolver, the query builder and the
      result reconciler, as a shallow embedding.

    Python values are modelled as follows.
    - [str] is [string] (a byte sequence; UTF-8 keeps the code-point order,
      which is the order [sorted] uses on [str]).
    - [Optional[X]] is [option X]; Python's [None] is Rocq's [None].
    - a raised exception is the left summand of [result].
    - a [dict] read and written by key is a [gmap]; a [set] is a [gset]. *)

From Stdlib Require Import Ascii String.
From stdpp Require Import base option list sorting gmap strings pretty.

Local Open Scope string_scope.

(** ** Exceptions *)

(** The two exception classes the module raises itself, the TypeError the
    interpreter raises for an [except] clause that names no exception class,
    and an exception of a driver that passes through
    [compare_tables_internal] unchanged. *)
Inductive exn : Type :=
  | ValueError (msg : string)
  | RuntimeError (msg : string)
  | TypeError (msg : string)
  | DriverError (msg : string).

(** The outcome of a call that may raise. *)
Abbreviation result := (sum exn).

Definition raise {A} (e : exn) : result A := inl e.
Definition ret {A} (a : A) : result A := inr a.

(** Sequencing: an exception skips the rest of the block. *)
#[global] Instance result_bind : MBind result := λ A B k m,
  match m with
  | inl e => inl e
  | inr a => k a
  end.

#[global] Instance result_ret : MRet result := λ A a, inr a.

(** A list comprehension whose body may raise: the first exception wins. *)
Fixpoint map_result {A B} (f : A → result B) (l : list A) : result (list B) :=
  match l with
  | [] => ret []
  | a :: l' => b ← f a; bs ← map_result f l'; ret (b :: bs)
  end.

(** ** String helpers *)

Definition dquote : string := String "034"%char EmptyString.
Definition newline : string := String "010"%char EmptyString.

(** [sep.join(parts)] *)
Definition join (sep : string) (parts : list string) : string :=
  String.concat sep parts.

(** [s.isascii()]: every byte is below 128. *)
Fixpoint isascii (s : string) : bool :=
  match s with
  | EmptyString => true
  | String c s' => (nat_of_ascii c <? 128)%nat && isascii s'
  end.

(** [str.upper()] on one byte: the ASCII letters a-z move to A-Z, every
    other byte stays.  This is [str.upper] on ASCII text ([isascii]); the
    case mapping of code points above 127 is not modelled, so what is said
    of the uppercase form of a text is said of ASCII text. *)
Definition upper_char (c : ascii) : ascii :=
  let n := nat_of_ascii c in
  if (97 <=? n)%nat && (n <=? 122)%nat then ascii_of_nat (n - 32) else c.

Fixpoint upper (s : string) : string :=
  match s with
  | EmptyString => EmptyString
  | String c s' => String (upper_char c) (upper s')
  end.

(** [s.split(sep)] for a one-character separator: n occurrences of the
    separator give n+1 parts, empty parts included. *)
Fixpoint str_split (sep : ascii) (s : string) : list string :=
  match s with
  | EmptyString => [EmptyString]
  | String c s' =>
      if Ascii.eqb c sep then EmptyString :: str_split sep s'
      else match str_split sep s' with
           | [] => [String c EmptyString]
           | p :: ps => String c p :: ps
           end
  end.

(** [ch in s] for a one-character [ch]. *)
Fixpoint contains_char (ch : ascii) (s : string) : bool :=
  match s with
  | EmptyString => false
  | String c s' => Ascii.eqb c ch || contains_char ch s'
  end.

(** [x in l] on a list of strings. *)
Definition py_in (x : string) (l : list string) : bool :=
  bool_decide (x ∈ l).

(** ** Cast resolver: [_get_cast_expression_for_sql_expr] *)

Definition valid_types : list string :=
  [ "STRING"; "VARCHAR";
    "FLOAT64"; "DOUBLE"; "FLOAT";
    "BOOL"; "BOOLEAN";
    "DATE";
    "TIMESTAMP";
    "INT64"; "INTEGER"; "BIGINT"; "INT"; "SMALLINT"; "TINYINT";
    "BYTES";
    "NUMERIC"; "DECIMAL";
    "BIGNUMERIC";
    "JSON";
    "TIME" ].

Definition mapping : gmap string string :=
  list_to_map
    [ ("TEXT", "STRING");
      ("INT", "INT64");
      ("INTEGER", "INT64");
      ("BIGINT", "INT64");
      ("DOUBLE", "FLOAT64");
      ("BOOLEAN", "BOOL");
      ("DECIMAL", "NUMERIC") ].

(** The text of the [ValueError] raised for a rejected type. *)
Definition unsupported_cast_msg (cast_type normalized_cast_type : string) : string :=
  "Unsupported cast type: '" ++ cast_type ++ "'. Normalized to '" ++
  normalized_cast_type ++ "'. " ++
  "Supported/checked types are: " ++ join ", " valid_types.

Definition cast_text (sql_expression_to_cast ty : string) : string :=
  "CAST(" ++ sql_expression_to_cast ++ " AS " ++ ty ++ ")".

Definition _get_cast_expression_for_sql_expr
    (sql_expression_to_cast cast_type : string) : result string :=
  let normalized_cast_type := upper cast_type in
  if negb (py_in normalized_cast_type valid_types) then
    let normalized_cast_type :=
      default normalized_cast_type (mapping !! normalized_cast_type) in
    if negb (py_in normalized_cast_type valid_types) then
      raise (ValueError (unsupported_cast_msg cast_type normalized_cast_type))
    else ret (cast_text sql_expression_to_cast normalized_cast_type)
  else ret (cast_text sql_expression_to_cast normalized_cast_type).

(** ** Dialect adapter *)

(** [_quote_identifier] *)
Definition _quote_identifier (identifier db_type : string) : string :=
  if String.eqb db_type "duckdb" then dquote ++ identifier ++ dquote
  else if String.eqb db_type "bigquery" then "`" ++ identifier ++ "`"
  else identifier.

(** [_parse_bigquery_table_name]; [not client_project] holds for [None] and
    for the empty string. *)
Definition is_falsy (client_project : option string) : bool :=
  match client_project with
  | None => true
  | Some p => String.eqb p EmptyString
  end.

Definition missing_project_msg (table_name : string) : string :=
  "Table name '" ++ table_name ++
  "' is missing project ID, and BigQuery client has no default project. " ++
  "Provide full name as 'project.dataset.table' or ensure client is initialized with a project.".

Definition invalid_format_msg (table_name : string) : string :=
  "Invalid BigQuery table name format: '" ++ table_name ++
  "'. Expected [project.]dataset.table or dataset.table".

Definition _parse_bigquery_table_name
    (table_name : string) (client_project : option string) : result string :=
  let parts := str_split "." table_name in
  match parts with
  | [_; _; _] => ret table_name
  | [p0; p1] =>
      if is_falsy client_project then raise (ValueError (missing_project_msg table_name))
      else ret (default EmptyString client_project ++ "." ++ p0 ++ "." ++ p1)
  | _ => raise (ValueError (invalid_format_msg table_name))
  end.

(** ** Backend values *)

(** What the reconciler needs of a non-[None] value a driver returns:
    [py_ne v1 v2] is [v1 != v2], [is_primitive v] is
    [isinstance(v, (str, int, float, bool))] and [py_str v] is [str(v)]. *)
Class DbValue (V : Type) : Type := {
  py_ne : V → V → bool;
  is_primitive : V → bool;
  py_str : V → V;
}.

(** A cell of a result row: [None] is SQL NULL. *)
Definition cell (V : Type) : Type := option V.

(** How a driver call can fail. *)
Inductive backend_failure : Type :=
  | NotFound (e : string)
  | OtherFailure (e : string).

(** The connection or client object, as far as [compare_tables_internal]
    uses it: [describe q] is [conn.execute(q).fetchall()] for a DESCRIBE
    statement, reduced to the first field of each row; [get_table r] is the
    names of [client.get_table(r).schema]; [run_query q] gives the names of
    the result description and the rows.  With it goes the one piece of
    module state the lookup of a BigQuery table reads: [not_found_bound]
    tells whether the name [NotFound] is bound to the exception class of
    google.api_core; after a failed import (lines 30-32) it is bound to
    [None]. *)
Record connection (V : Type) : Type := {
  project : option string;
  describe : string → backend_failure + list string;
  get_table : string → backend_failure + list string;
  run_query : string → result (list string * list (list (cell V)));
  not_found_bound : bool;
}.
Arguments project {V} _.
Arguments not_found_bound {V} _.
Arguments describe {V} _ _.
Arguments get_table {V} _ _.
Arguments run_query {V} _ _.

Definition failure_text (f : backend_failure) : string :=
  match f with NotFound e | OtherFailure e => e end.

(** [name.split('.', 1)] when [name] holds a dot. *)
Fixpoint split_first (sep : ascii) (s : string) : string * string :=
  match s with
  | EmptyString => (EmptyString, EmptyString)
  | String c s' =>
      if Ascii.eqb c sep then (EmptyString, s')
      else let '(a, b) := split_first sep s' in (String c a, b)
  end.

(** [_get_duckdb_table_columns] *)
Definition _get_duckdb_table_columns {V} (conn : connection V) (table_name : string)
    : result (list string) :=
  let quoted_table_name :=
    if contains_char "." table_name then
      let '(schema, name) := split_first "." table_name in
      dquote ++ schema ++ dquote ++ "." ++ dquote ++ name ++ dquote
    else dquote ++ table_name ++ dquote in
  match describe conn ("DESCRIBE " ++ quoted_table_name) with
  | inr cols => ret cols
  | inl f => raise (RuntimeError
      ("Error describing DuckDB table " ++ table_name ++ ": " ++ failure_text f))
  end.

(** The text of the TypeError raised when an [except] clause is matched
    against a value that is not an exception class. *)
Definition except_none_msg : string :=
  "catching classes that do not inherit from BaseException is not allowed".

(** [_get_bigquery_table_columns].  When the lookup raises, the clause
    [except NotFound:] is matched first; with [NotFound] bound to [None] that
    matching itself raises a TypeError, which leaves the function. *)
Definition _get_bigquery_table_columns {V} (client : connection V) (table_ref_str : string)
    : result (list string) :=
  match get_table client table_ref_str with
  | inr cols => ret cols
  | inl f =>
      if not_found_bound client then
        match f with
        | NotFound _ => raise (RuntimeError ("BigQuery table not found: " ++ table_ref_str))
        | OtherFailure e => raise (RuntimeError
            ("Error describing BigQuery table " ++ table_ref_str ++ ": " ++ e))
        end
      else raise (TypeError except_none_msg)
  end.

(** ** Query builder *)

(** [_build_select_expression] *)
Definition _build_select_expression (col table_alias_in_cte_from : string)
    (scalar_casts : gmap string string) (db_type : string) : result string :=
  let source_col_ref :=
    table_alias_in_cte_from ++ "." ++ _quote_identifier col db_type in
  final_value_expression_for_select ←
    match scalar_casts !! col with
    | Some cast_type => _get_cast_expression_for_sql_expr source_col_ref cast_type
    | None => ret source_col_ref
    end;
  let output_alias_for_cte :=
    _quote_identifier (table_alias_in_cte_from ++ "_" ++ col) db_type in
  ret (final_value_expression_for_select ++ " AS " ++ output_alias_for_cte).

(** The local function [quote_duckdb_name] of [compare_tables_internal]. *)
Definition quote_duckdb_name (name : string) : string :=
  if contains_char "." name then
    join "." (map (λ part, dquote ++ part ++ dquote) (str_split "." name))
  else dquote ++ name ++ dquote.

(** Lines 231-251: column lists and SQL references of the two tables. *)
Definition resolve_tables {V} (db_type : string) (conn_or_client : connection V)
    (table1_name table2_name : string)
    : result (list string * list string * string * string) :=
  if String.eqb db_type "duckdb" then
    t1_cols_list ← _get_duckdb_table_columns conn_or_client table1_name;
    t2_cols_list ← _get_duckdb_table_columns conn_or_client table2_name;
    ret (t1_cols_list, t2_cols_list,
         quote_duckdb_name table1_name, quote_duckdb_name table2_name)
  else if String.eqb db_type "bigquery" then
    let client_project := project conn_or_client in
    t1_full_ref ← _parse_bigquery_table_name table1_name client_project;
    t2_full_ref ← _parse_bigquery_table_name table2_name client_project;
    t1_cols_list ← _get_bigquery_table_columns conn_or_client t1_full_ref;
    t2_cols_list ← _get_bigquery_table_columns conn_or_client t2_full_ref;
    ret (t1_cols_list, t2_cols_list, "`" ++ t1_full_ref ++ "`", "`" ++ t2_full_ref ++ "`")
  else raise (ValueError ("Unsupported database type: " ++ db_type)).

(** [list(set(t1_cols_list).intersection(set(t2_cols_list)))].  The order in
    which Python walks a set of strings is not fixed (it changes with the
    hash seed of the process and with the way the set was built), so the
    walk is a parameter [set_iter]; a statement that compares two runs takes
    one walk for each run. *)
Definition common_schema_cols (set_iter : gset string → list string)
    (t1_cols_list t2_cols_list : list string) : list string :=
  set_iter (list_to_set t1_cols_list ∩ list_to_set t2_cols_list).

(** A walk lists every member of the set once. *)
Definition walks_sets (set_iter : gset string → list string) : Prop :=
  ∀ X : gset string, set_iter X ≡ₚ elements X.

(** Lines 253-259: the checks on the primary key. *)
Definition empty_pk_msg : string :=
  "Primary key columns (--pk-cols) must be specified and not empty.".

Definition pk_not_common_msg (pk_col : string) : string :=
  "Primary key column '" ++ pk_col ++ "' not found as a common column in both tables.".

Fixpoint check_pk_common (common : list string) (pk_cols : list string) : result unit :=
  match pk_cols with
  | [] => ret ()
  | pk_col :: rest =>
      if negb (py_in pk_col common) then raise (ValueError (pk_not_common_msg pk_col))
      else check_pk_common common rest
  end.

Definition validate_pk_cols (common pk_cols : list string) : result unit :=
  match pk_cols with
  | [] => raise (ValueError empty_pk_msg)
  | _ => check_pk_common common pk_cols
  end.

(** Line 261: [sorted([col for col in common_schema_cols if ...])]. *)
Definition compare_cols_of (common pk_cols ignore_cols : list string) : list string :=
  merge_sort String.le
    (filter (λ col, (col ∉ pk_cols) ∧ (col ∉ ignore_cols)) common).

(** Lines 274-277. *)
Definition join_on_pks (db_type : string) (pk_cols : list string) : string :=
  join " AND "
    (map (λ pk, "t1." ++ _quote_identifier ("t1_" ++ pk) db_type ++ " = t2." ++
                _quote_identifier ("t2_" ++ pk) db_type) pk_cols).

(** Lines 279-284: the loop that appends one condition per compare column. *)
Definition diff_condition (db_type col : string) : string :=
  let t1_col_ref_in_cte := _quote_identifier ("t1_" ++ col) db_type in
  let t2_col_ref_in_cte := _quote_identifier ("t2_" ++ col) db_type in
  "t1." ++ t1_col_ref_in_cte ++ " IS DISTINCT FROM t2." ++ t2_col_ref_in_cte.

Definition diff_conditions_list (db_type : string) (compare_cols : list string)
    : list string :=
  foldl (λ acc col, (acc ++ [diff_condition db_type col])%list) [] compare_cols.

(** Lines 286-291. *)
Definition t1_only_conditions (db_type : string) (pk_cols : list string) : string :=
  join " AND "
    (map (λ pk, "t2." ++ _quote_identifier ("t2_" ++ pk) db_type ++ " IS NULL") pk_cols).

Definition t2_only_conditions (db_type : string) (pk_cols : list string) : string :=
  join " AND "
    (map (λ pk, "t1." ++ _quote_identifier ("t1_" ++ pk) db_type ++ " IS NULL") pk_cols).

(** Truth value of a list: non-empty. *)
Definition truthy {A} (l : list A) : bool :=
  match l with [] => false | _ => true end.

(** Lines 293-304. *)
Definition where_clause (db_type : string) (pk_cols compare_cols : list string) : string :=
  let conds := diff_conditions_list db_type compare_cols in
  let where_parts : list string := [] in
  let where_parts :=
    if truthy conds then (where_parts ++ ["(" +:+ join " OR " conds +:+ ")"])%list
    else where_parts in
  let where_parts :=
    if truthy pk_cols then
      (where_parts ++ ["(" +:+ t1_only_conditions db_type pk_cols +:+ ")"]
                   ++ ["(" +:+ t2_only_conditions db_type pk_cols +:+ ")"])%list
    else where_parts in
  if negb (truthy where_parts) then "1=0" else join " OR " where_parts.

(** Lines 306-309. *)
Definition coalesced_pk_selects (db_type : string) (pk_cols : list string) : list string :=
  map (λ pk, "COALESCE(t1." ++ _quote_identifier ("t1_" ++ pk) db_type ++ ", t2." ++
             _quote_identifier ("t2_" ++ pk) db_type ++ ") AS " ++
             _quote_identifier pk db_type) pk_cols.

(** Lines 311-328: the text of the query. *)
Definition query_text (db_type : string)
    (t1_select_exprs_for_cte t2_select_exprs_for_cte : list string)
    (table1_sql_ref table2_sql_ref : string)
    (pk_cols compare_cols : list string) (limit : option Z) : string :=
  let query :=
    newline ++
    "    WITH table1_prepared AS (" ++ newline ++
    "        SELECT " ++ join ", " t1_select_exprs_for_cte ++
      " FROM " ++ table1_sql_ref ++ " t1" ++ newline ++
    "    )," ++ newline ++
    "    table2_prepared AS (" ++ newline ++
    "        SELECT " ++ join ", " t2_select_exprs_for_cte ++
      " FROM " ++ table2_sql_ref ++ " t2" ++ newline ++
    "    )" ++ newline ++
    "    SELECT" ++ newline ++
    "        " ++ join ", " (coalesced_pk_selects db_type pk_cols) ++ "," ++ newline ++
    "        t1.*, " ++ newline ++
    "        t2.*  " ++ newline ++
    "    FROM table1_prepared t1" ++ newline ++
    "    FULL OUTER JOIN table2_prepared t2 ON " ++ join_on_pks db_type pk_cols ++ newline ++
    "    WHERE " ++ where_clause db_type pk_cols compare_cols ++ newline ++
    "    " in
  match limit with
  | Some n => query ++ " LIMIT " ++ pretty n
  | None => query
  end.

(** Lines 253-328 of [compare_tables_internal]: from the two column lists
    to the compare columns and the query.  The warnings printed to stderr
    for an empty compare list are not modelled. *)
Definition build_query (set_iter : gset string → list string) (db_type : string)
    (t1_cols_list t2_cols_list : list string) (table1_sql_ref table2_sql_ref : string)
    (pk_cols ignore_cols : list string) (scalar_casts : gmap string string)
    (limit : option Z) : result (list string * string) :=
  let common := common_schema_cols set_iter t1_cols_list t2_cols_list in
  _ ← validate_pk_cols common pk_cols;
  let compare_cols := compare_cols_of common pk_cols ignore_cols in
  t1_select_exprs_for_cte ←
    map_result (λ col, _build_select_expression col "t1" scalar_casts db_type)
               (pk_cols ++ compare_cols)%list;
  t2_select_exprs_for_cte ←
    map_result (λ col, _build_select_expression col "t2" scalar_casts db_type)
               (pk_cols ++ compare_cols)%list;
  ret (compare_cols,
       query_text db_type t1_select_exprs_for_cte t2_select_exprs_for_cte
                  table1_sql_ref table2_sql_ref pk_cols compare_cols limit).

(** ** Result reconciler *)

(** The entries of [diff_details]: a two-element list [[v1, v2]], or the
    text stored under the key ["_status"]. *)
Inductive diff_val (V : Type) : Type :=
  | Pair (v1 v2 : cell V)
  | Status (s : string).
Arguments Pair {V} _ _.
Arguments Status {V} _.

(** The entries of [diff_entry]: a primary-key value, or the mapping stored
    under the key ["diffs"]. *)
Inductive entry_val (V : Type) : Type :=
  | Field (v : cell V)
  | Diffs (d : gmap string (diff_val V)).
Arguments Field {V} _.
Arguments Diffs {V} _.

Definition is_none {A} (o : option A) : bool :=
  match o with None => true | Some _ => false end.

(** Truth value of a dict: non-empty. *)
Definition dict_truthy {A} (d : gmap string A) : bool :=
  negb (Nat.eqb (size d) 0).

Section Reconciler.
Context {V : Type} `{DbValue V}.

(** [dict(zip(final_column_names, row_tuple))]: [zip] stops at the shorter
    sequence, and a name that occurs twice keeps its last value. *)
Definition row_dict_of (final_column_names : list string) (row_tuple : list (cell V))
    : gmap string (cell V) :=
  foldl (λ d kv, <[kv.1 := kv.2]> d) ∅ (zip final_column_names row_tuple).

(** [row_dict.get(k)] *)
Definition py_get (row_dict : gmap string (cell V)) (k : string) : cell V :=
  default None (row_dict !! k).

(** Lines 354-355. *)
Definition is_t1_only (pk_cols : list string) (row_dict : gmap string (cell V)) : bool :=
  forallb (λ pk, is_none (py_get row_dict ("t2_" ++ pk))) pk_cols &&
  existsb (λ pk, negb (is_none (py_get row_dict ("t1_" ++ pk)))) pk_cols.

Definition is_t2_only (pk_cols : list string) (row_dict : gmap string (cell V)) : bool :=
  forallb (λ pk, is_none (py_get row_dict ("t1_" ++ pk))) pk_cols &&
  existsb (λ pk, negb (is_none (py_get row_dict ("t2_" ++ pk)))) pk_cols.

(** Lines 371-375: for BigQuery a value that is not a str, int, float,
    bool or None is replaced by its [str]. *)
Definition coerce (db_type : string) (val : cell V) : cell V :=
  if String.eqb db_type "bigquery" then
    match val with
    | None => None
    | Some v => if is_primitive v then Some v else Some (py_str v)
    end
  else val.

(** [val1 != val2]: [None] differs from every value but [None]. *)
Definition value_ne (val1 val2 : cell V) : bool :=
  match val1, val2 with
  | None, None => false
  | Some v1, Some v2 => py_ne v1 v2
  | _, _ => true
  end.

(** The test of line 377 for one compare column. *)
Definition differs (db_type : string) (row_dict : gmap string (cell V)) (col : string) : bool :=
  value_ne (coerce db_type (py_get row_dict ("t1_" ++ col)))
           (coerce db_type (py_get row_dict ("t2_" ++ col))).

(** One turn of the loop of lines 367-379 on the pair
    [(diff_details, has_value_diff)]. *)
Definition value_diff_step (db_type : string) (row_dict : gmap string (cell V))
    (st : gmap string (diff_val V) * bool) (col : string)
    : gmap string (diff_val V) * bool :=
  let val1 := coerce db_type (py_get row_dict ("t1_" ++ col)) in
  let val2 := coerce db_type (py_get row_dict ("t2_" ++ col)) in
  if value_ne val1 val2 then (<[col := Pair val1 val2]> st.1, true) else st.

(** Lines 351-381: [diff_details] and [status_indicators] of a row. *)
Definition diff_row (db_type : string) (pk_cols compare_cols : list string)
    (row_dict : gmap string (cell V)) : gmap string (diff_val V) * list string :=
  let diff_details : gmap string (diff_val V) := ∅ in
  let status_indicators : list string := [] in
  if is_t1_only pk_cols row_dict then
    ( foldl (λ d col, <[col := Pair (py_get row_dict ("t1_" ++ col)) None]> d)
            diff_details compare_cols,
      (status_indicators ++ ["present_in_table1_only"])%list )
  else if is_t2_only pk_cols row_dict then
    ( foldl (λ d col, <[col := Pair None (py_get row_dict ("t2_" ++ col))]> d)
            diff_details compare_cols,
      (status_indicators ++ ["present_in_table2_only"])%list )
  else
    let '(diff_details, has_value_diff) :=
      foldl (value_diff_step db_type row_dict) (diff_details, false) compare_cols in
    ( diff_details,
      if has_value_diff then (status_indicators ++ ["value_differences"])%list
      else status_indicators ).

(** Line 348: [{pk: row_dict.get(pk) for pk in pk_cols}]. *)
Definition pk_output_values (pk_cols : list string) (row_dict : gmap string (cell V))
    : gmap string (entry_val V) :=
  foldl (λ e pk, <[pk := Field (py_get row_dict pk)]> e) ∅ pk_cols.

(** Lines 346-387: the body of the loop over the rows; [None] when nothing
    is appended to [output_diffs]. *)
Definition reconcile_row (db_type : string) (pk_cols compare_cols : list string)
    (row_dict : gmap string (cell V)) : option (gmap string (entry_val V)) :=
  let diff_entry : gmap string (entry_val V) := ∅ in
  let diff_entry := pk_output_values pk_cols row_dict ∪ diff_entry in
  let '(diff_details, status_indicators) :=
    diff_row db_type pk_cols compare_cols row_dict in
  if dict_truthy diff_details
     || py_in "present_in_table1_only" status_indicators
     || py_in "present_in_table2_only" status_indicators
  then
    let diffs :=
      if truthy status_indicators
      then <["_status" := Status (join "," status_indicators)]> diff_details
      else diff_details in
    Some (<["diffs" := Diffs diffs]> diff_entry)
  else None.

(** An entry carries the status text [s]: it is the value stored under
    ["_status"] in the mapping stored under ["diffs"]. *)
Definition has_status (e : gmap string (entry_val V)) (s : string) : Prop :=
  ∃ d, e !! "diffs" = Some (Diffs d) ∧ d !! "_status" = Some (Status s).

(** Lines 342-389. *)
Definition reconcile (db_type : string) (pk_cols compare_cols : list string)
    (final_column_names : list string) (results_iter : list (list (cell V)))
    : list (gmap string (entry_val V)) :=
  omap (λ row_tuple,
          reconcile_row db_type pk_cols compare_cols
                        (row_dict_of final_column_names row_tuple))
       results_iter.

(** [compare_tables_internal] *)
Definition compare_tables_internal (set_iter : gset string → list string)
    (db_type : string) (conn_or_client : connection V)
    (table1_name table2_name : string) (pk_cols ignore_cols : list string)
    (scalar_casts : gmap string string) (limit : option Z)
    : result (list (gmap string (entry_val V))) :=
  '(t1_cols_list, t2_cols_list, table1_sql_ref, table2_sql_ref) ←
    resolve_tables db_type conn_or_client table1_name table2_name;
  '(compare_cols, query) ←
    build_query set_iter db_type t1_cols_list t2_cols_list
                table1_sql_ref table2_sql_ref pk_cols ignore_cols scalar_casts limit;
  '(final_column_names, results_iter) ← run_query conn_or_client query;
  ret (reconcile db_type pk_cols compare_cols final_column_names results_iter).

End Reconciler.

(** ** The canonical type names of the specification *)

(** The supported set as the specification lists it. *)
Definition spec_supported_set : list string :=
  [ "STRING"; "FLOAT64"; "BOOL"; "DATE"; "TIMESTAMP"; "INT64"; "BYTES";
    "NUMERIC"; "BIGNUMERIC"; "JSON"; "TIME" ].

(** The uppercased, synonym-mapped form of a requested type. *)
Definition synonym_mapped (cast_type : string) : string :=
  default (upper cast_type) (mapping !! upper cast_type).

(** ** A concrete value type, used to run the reconciler on examples *)

Inductive demo_val : Type :=
  | DInt (z : Z)
  | DStr (s : string)
  | DObj (repr : string).

Definition demo_ne (a b : demo_val) : bool :=
  match a, b with
  | DInt x, DInt y => negb (x =? y)%Z
  | DStr x, DStr y => negb (String.eqb x y)
  | DObj x, DObj y => negb (String.eqb x y)
  | _, _ => true
  end.

#[global] Instance demo_DbValue : DbValue demo_val := {|
  py_ne := demo_ne;
  is_primitive v := match v with DObj _ => false | _ => true end;
  py_str v := match v with DObj r => DStr r | DInt z => DStr (pretty z) | DStr s => DStr s end;
|}.

(** Two tables with the columns id, name, value.  The query result holds
    one row with a changed value, one row of table 1 only and one row of
    table 2 only. *)
Definition demo_names : list string :=
  ["id"; "t1_id"; "t1_name"; "t1_value"; "t2_id"; "t2_name"; "t2_value"].

Definition demo_rows : list (list (cell demo_val)) :=
  [ [Some (DInt 2); Some (DInt 2); Some (DStr "Bob"); Some (DInt 200);
                    Some (DInt 2); Some (DStr "Bob"); Some (DInt 250)];
    [Some (DInt 5); Some (DInt 5); Some (DStr "Eve"); Some (DInt 500);
                    None; None; None];
    [Some (DInt 4); None; None; None;
                    Some (DInt 4); Some (DStr "David"); Some (DInt 400)] ].

Definition demo_conn : connection demo_val := {|
  project := Some "proj";
  describe := λ _, inr ["id"; "name"; "value"];
  get_table := λ _, inr ["id"; "name"; "value"];
  run_query := λ _, inr (demo_names, demo_rows);
  not_found_bound := true;
|}.

(** Rows of two tables that have a column named "_status". *)
Definition status_names : list string :=
  ["id"; "t1_id"; "t1__status"; "t1_a"; "t2_id"; "t2__status"; "t2_a"].

(** Present on both sides; "_status" is null on side 1 only; a is equal. *)
Definition status_row_null : gmap string (cell demo_val) :=
  row_dict_of status_names
    [Some (DInt 1); Some (DInt 1); None; Some (DInt 0);
                    Some (DInt 1); Some (DStr "x"); Some (DInt 0)].

(** Present on both sides; "_status" is null on both sides; a differs. *)
Definition status_row_both_null : gmap string (cell demo_val) :=
  row_dict_of status_names
    [Some (DInt 1); Some (DInt 1); None; Some (DInt 1);
                    Some (DInt 1); None; Some (DInt 2)].

(** Present on both sides; "_status" differs. *)
Definition status_row_diff : gmap string (cell demo_val) :=
  row_dict_of status_names
    [Some (DInt 1); Some (DInt 1); Some (DStr "open"); Some (DInt 0);
                    Some (DInt 1); Some (DStr "closed"); Some (DInt 0)].

(** Present in table 1 only. *)
Definition status_row_t1_only : gmap string (cell demo_val) :=
  row_dict_of status_names
    [Some (DInt 5); Some (DInt 5); Some (DStr "open"); Some (DInt 0); None; None; None].

(** Present on both sides; name is null on side 1 only, value on both. *)
Definition null_row : gmap string (cell demo_val) :=
  row_dict_of demo_names
    [Some (DInt 7); Some (DInt 7); None; None; Some (DInt 7); Some (DStr "Al"); None].

(** The entries for [demo_rows], with and without compare columns. *)
Definition demo_out : list (gmap string (entry_val demo_val)) :=
  reconcile "duckdb" ["id"] ["name"; "value"] demo_names demo_rows.

Definition demo_out_keys_only : list (gmap string (entry_val demo_val)) :=
  reconcile "duckdb" ["id"] [] demo_names demo_rows.

(** ** Further parts of the module *)

(** [_get_duckdb_table_columns], lines 105-110: the statement sent to the
    connection. *)
Definition duckdb_describe_statement (table_name : string) : string :=
  let quoted_table_name :=
    if contains_char "." table_name then
      let '(schema, name) := split_first "." table_name in
      dquote ++ schema ++ dquote ++ "." ++ dquote ++ name ++ dquote
    else dquote ++ table_name ++ dquote in
  "DESCRIBE " ++ quoted_table_name.

(** [c.isspace()] for an ASCII character: tab, line feed, vertical tab, form
    feed, carriage return, the four separators 28-31 and the space. *)
Definition is_space (c : ascii) : bool :=
  let n := nat_of_ascii c in
  ((9 <=? n)%nat && (n <=? 13)%nat) || ((28 <=? n)%nat && (n <=? 32)%nat).

(** [s.lstrip()], [s.rstrip()] and [s.strip()] on ASCII text ([isascii]);
    the white space above code point 127 that Python also strips is not
    modelled, so what is said of stripped text is said of ASCII text. *)
Fixpoint lstrip (s : string) : string :=
  match s with
  | EmptyString => EmptyString
  | String c s' => if is_space c then lstrip s' else s
  end.

Fixpoint rstrip (s : string) : string :=
  match s with
  | EmptyString => EmptyString
  | String c s' =>
      match rstrip s' with
      | EmptyString => if is_space c then EmptyString else String c EmptyString
      | r => String c r
      end
  end.

Definition strip (s : string) : string := rstrip (lstrip s).

(** [parse_arguments], line 57: the type of [--pk-cols],
    [[col.strip() for col in s.split(",") if col.strip()]]. *)
Definition parse_pk_cols (s : string) : list string :=
  map strip (filter (λ col, strip col ≠ EmptyString) (str_split "," s)).

(** [parse_arguments], line 69: the type of [--ignore-cols]. *)
Definition parse_ignore_cols (s : string) : list string :=
  if negb (String.eqb s EmptyString) then
    map strip (filter (λ col, strip col ≠ EmptyString) (str_split "," s))
  else [].

(** [parse_arguments], line 75: the type of [--scalar-casts].  The items
    that hold an equals sign are split at every equals sign and unpacked
    into a key and a value; unpacking more than two parts raises a
    ValueError (the wording of its message depends on the interpreter). *)
Definition unpack_error_msg : string := "too many values to unpack (expected 2)".

Fixpoint casts_of_items (items : list string) (acc : gmap string string)
    : result (gmap string string) :=
  match items with
  | [] => ret acc
  | item :: rest =>
      if contains_char "=" item then
        match str_split "=" item with
        | [k; v] => casts_of_items rest (<[strip k := strip v]> acc)
        | _ => raise (ValueError unpack_error_msg)
        end
      else casts_of_items rest acc
  end.

Definition parse_scalar_casts (s : string) : result (gmap string string) :=
  if negb (String.eqb s EmptyString) then casts_of_items (str_split "," s) ∅
  else ret ∅.

(** ** [run_comparison] *)

(** What [run_comparison] raises: an ImportError of its own, or an exception
    of the comparison or of a driver. *)
Inductive run_exn : Type :=
  | ImportError (msg : string)
  | Raised (e : exn).

(** The calls [run_comparison] itself makes on a driver, in order. *)
Inductive driver_call : Type :=
  | DuckdbConnect
  | DuckdbExecute (script : string)
  | DuckdbClose
  | BigqueryClient.

(** The [duckdb] module: [duckdb_connect] is the exception raised by
    [duckdb.connect(database=':memory:', read_only=False)], if any;
    [duckdb_execute done script] is the exception raised by
    [conn.execute(script)] after the scripts [done], if any;
    [duckdb_database done] is the connection as the comparison sees it
    after the scripts [done].  [close()] is taken not to raise. *)
Record duckdb_module (V : Type) : Type := {
  duckdb_connect : option exn;
  duckdb_execute : list string → string → option exn;
  duckdb_database : list string → connection V;
}.
Arguments duckdb_connect {V} _.
Arguments duckdb_execute {V} _ _ _.
Arguments duckdb_database {V} _ _.

(** The optional imports of lines 22-32: [None] when the import failed;
    for BigQuery the value is the outcome of [bigquery.Client()]. *)
Record drivers (V : Type) : Type := {
  duckdb : option (duckdb_module V);
  bigquery : option (result (connection V));
}.
Arguments duckdb {V} _.
Arguments bigquery {V} _.

Definition demo_table_A_script : string :=
  "CREATE OR REPLACE TABLE demo_table_A (id INTEGER PRIMARY KEY, name VARCHAR, value INTEGER, last_seen TIMESTAMP);" ++
  newline ++
  "                                    INSERT INTO demo_table_A VALUES (1, 'Alice', 100, '2023-01-01 10:00:00'), (2, 'Bob', 200, '2023-01-02 11:00:00'), (3, 'Charlie', 300, '2023-01-03 12:00:00'), (5, 'Eve_Old', 500, '2023-01-05 14:00:00');".

Definition demo_table_B_script : string :=
  "CREATE OR REPLACE TABLE demo_table_B (id INTEGER PRIMARY KEY, name VARCHAR, value INTEGER, last_seen TIMESTAMP);" ++
  newline ++
  "                                    INSERT INTO demo_table_B VALUES (1, 'Alice', 100, '2023-01-01 10:00:00'), (2, 'Bob', 250, '2023-01-02 11:30:00'), (4, 'David', 400, '2023-01-04 13:00:00'), (5, 'Eve_New', 550, '2023-01-05 14:30:00');".

(** Executing scripts one after the other: the scripts executed (also the
    one that raised) and the exception, if any. *)
Fixpoint execute_scripts {V} (m : duckdb_module V) (done todo : list string)
    : list string * option exn :=
  match todo with
  | [] => (done, None)
  | script :: rest =>
      match duckdb_execute m done script with
      | Some e => ((done ++ [script])%list, Some e)
      | None => execute_scripts m (done ++ [script])%list rest
      end
  end.

(** [run_comparison]: the driver calls made, and the outcome.  The line
    printed to stderr for the demo tables is not modelled. *)
Definition run_comparison {V : Type} `{DbValue V} (set_iter : gset string → list string)
    (env : drivers V) (db_type table1 table2 : string) (pk_cols : list string)
    (limit : option Z) (ignore_cols : list string) (scalar_casts : gmap string string)
    : list driver_call * (run_exn + list (gmap string (entry_val V))) :=
  if String.eqb db_type "duckdb" then
    match duckdb env with
    | None =>
        ([], inl (ImportError
          "DuckDB library is not installed. Please install with `pip install duckdb`."))
    | Some m =>
        match duckdb_connect m with
        | Some e => ([DuckdbConnect], inl (Raised e))
        | None =>
            let setup :=
              if String.eqb table1 "demo_table_A" && String.eqb table2 "demo_table_B"
              then [demo_table_A_script; demo_table_B_script] else [] in
            match execute_scripts m [] setup with
            | (executed, Some e) =>
                ((DuckdbConnect :: map DuckdbExecute executed)%list, inl (Raised e))
            | (executed, None) =>
                let outcome :=
                  compare_tables_internal set_iter db_type (duckdb_database m executed)
                                          table1 table2 pk_cols ignore_cols scalar_casts limit in
                ((DuckdbConnect :: map DuckdbExecute executed ++ [DuckdbClose])%list,
                 match outcome with inl e => inl (Raised e) | inr diffs => inr diffs end)
            end
        end
    end
  else if String.eqb db_type "bigquery" then
    match bigquery env with
    | None =>
        ([], inl (ImportError
          "Google Cloud BigQuery library is not installed. Please install with `pip install google-cloud-bigquery`."))
    | Some (inl e) => ([BigqueryClient], inl (Raised e))
    | Some (inr client) =>
        let outcome :=
          compare_tables_internal set_iter db_type client table1 table2
                                  pk_cols ignore_cols scalar_casts limit in
        ([BigqueryClient],
         match outcome with inl e => inl (Raised e) | inr diffs => inr diffs end)
    end
  else
    ([], inl (Raised (ValueError
      ("Unsupported db_type: '" ++ db_type ++ "'. Choose 'duckdb' or 'bigquery'.")))).

(** The two demo tables of [run_comparison] have the columns id, name,
    value and last_seen and the rows of ids 1, 2, 3, 5 and 1, 2, 4, 5.  For
    the key id the comparison query selects id, last_seen, name and value
    on each side, and its result holds the rows of ids 2, 3, 4 and 5, here
    in that order; a time stamp is a driver object. *)
Definition demo_tables_names : list string :=
  ["id"; "t1_id"; "t1_last_seen"; "t1_name"; "t1_value";
         "t2_id"; "t2_last_seen"; "t2_name"; "t2_value"].

Definition demo_tables_rows : list (list (cell demo_val)) :=
  [ [Some (DInt 2);
     Some (DInt 2); Some (DObj "2023-01-02 11:00:00"); Some (DStr "Bob"); Some (DInt 200);
     Some (DInt 2); Some (DObj "2023-01-02 11:30:00"); Some (DStr "Bob"); Some (DInt 250)];
    [Some (DInt 3);
     Some (DInt 3); Some (DObj "2023-01-03 12:00:00"); Some (DStr "Charlie"); Some (DInt 300);
     None; None; None; None];
    [Some (DInt 4);
     None; None; None; None;
     Some (DInt 4); Some (DObj "2023-01-04 13:00:00"); Some (DStr "David"); Some (DInt 400)];
    [Some (DInt 5);
     Some (DInt 5); Some (DObj "2023-01-05 14:00:00"); Some (DStr "Eve_Old"); Some (DInt 500);
     Some (DInt 5); Some (DObj "2023-01-05 14:30:00"); Some (DStr "Eve_New"); Some (DInt 550)] ].

Definition demo_tables_conn : connection demo_val := {|
  project := None;
  describe := λ _, inr ["id"; "name"; "value"; "last_seen"];
  get_table := λ _, inl (NotFound "not a BigQuery client");
  run_query := λ _, inr (demo_tables_names, demo_tables_rows);
  not_found_bound := true;
|}.

(** A DuckDB module whose in-memory database holds the demo tables once
    both scripts have run, and nothing before. *)
Definition demo_duckdb : duckdb_module demo_val := {|
  duckdb_connect := None;
  duckdb_execute := λ _ _, None;
  duckdb_database := λ done,
    if bool_decide (done = [demo_table_A_script; demo_table_B_script])
    then demo_tables_conn
    else {| project := None;
            describe := λ _, inl (OtherFailure "Catalog Error: table does not exist");
            get_table := λ _, inl (NotFound "no such table");
            run_query := λ _, inl (DriverError "Catalog Error: table does not exist");
            not_found_bound := true |};
|}.

Definition demo_drivers : drivers demo_val :=
  {| duckdb := Some demo_duckdb; bigquery := None |}.

(** A row that is the same on both sides, and a row of table 1 whose key
    is null. *)
Definition same_row : gmap string (cell demo_val) :=
  row_dict_of demo_names
    [Some (DInt 1); Some (DInt 1); Some (DStr "Alice"); Some (DInt 100);
                    Some (DInt 1); Some (DStr "Alice"); Some (DInt 100)].

Definition null_key_row : gmap string (cell demo_val) :=
  row_dict_of demo_names
    [None; None; Some (DStr "Zed"); Some (DInt 9); None; None; None].

(** * Properties *)

(** ** Sequencing *)

Lemma bind_inr {A B} (m : result A) (k : A → result B) (b : B) :
  m ≫= k = inr b → ∃ a, m = inr a ∧ k a = inr b.
Proof. destruct m as [e|a]; [done|]. intros Hk. by exists a. Qed.

Lemma bind_inl {A B} (m : result A) (k : A → result B) (e : exn) :
  m = inl e → m ≫= k = inl e.
Proof. by intros ->. Qed.

(** ** Cast resolver *)

Lemma py_in_true x l : py_in x l = true ↔ x ∈ l.
Proof. unfold py_in. apply bool_decide_eq_true. Qed.

Lemma py_in_false x l : py_in x l = false ↔ x ∉ l.
Proof. unfold py_in. apply bool_decide_eq_false. Qed.

(** Every synonym of the table is mapped to a name of [valid_types], and a
    name of [valid_types] stays in it. *)
Lemma mapped_valid u : u ∈ valid_types → default u (mapping !! u) ∈ valid_types.
Proof.
  unfold valid_types. intros Hu.
  repeat (apply elem_of_cons in Hu as [-> | Hu];
          [apply (bool_decide_unpack _); vm_compute; exact I |]).
  by apply elem_of_nil in Hu.
Qed.

(** A type whose uppercase form is already a name of [valid_types] is used
    as it is: the synonym table is not consulted. *)
Lemma cast_valid_passthrough x cast_type :
  upper cast_type ∈ valid_types →
  _get_cast_expression_for_sql_expr x cast_type = inr (cast_text x (upper cast_type)).
Proof.
  intros Hin. unfold _get_cast_expression_for_sql_expr.
  apply py_in_true in Hin. by rewrite Hin.
Qed.

Lemma cast_text_inj x ty1 ty2 : cast_text x ty1 = cast_text x ty2 → ty1 = ty2.
Proof.
  unfold cast_text. intros Heq.
  apply (inj (String.app "CAST(")) in Heq.
  apply (inj (String.app x)) in Heq.
  apply (inj (String.app " AS ")) in Heq.
  revert ty2 Heq. induction ty1 as [|c ty1 IH]; intros [|c' ty2] Heq; simpl in *;
    try done.
  - destruct ty2; discriminate.
  - destruct ty1; discriminate.
  - injection Heq as -> Heq. f_equal. by apply IH.
Qed.

(** C1: evaluated on the code, the requests "int", "INT" and "Integer" do not
    yield CAST(x AS INT64): the first two yield CAST(x AS INT), the third
    CAST(x AS INTEGER); of the seven synonyms only TEXT is mapped. *)
Theorem cast_synonyms_kept (x : string) :
  _get_cast_expression_for_sql_expr x "int" = inr ("CAST(" ++ x ++ " AS INT)") ∧
  _get_cast_expression_for_sql_expr x "INT" = inr ("CAST(" ++ x ++ " AS INT)") ∧
  _get_cast_expression_for_sql_expr x "Integer" = inr ("CAST(" ++ x ++ " AS INTEGER)") ∧
  _get_cast_expression_for_sql_expr x "bigint" = inr ("CAST(" ++ x ++ " AS BIGINT)") ∧
  _get_cast_expression_for_sql_expr x "double" = inr ("CAST(" ++ x ++ " AS DOUBLE)") ∧
  _get_cast_expression_for_sql_expr x "boolean" = inr ("CAST(" ++ x ++ " AS BOOLEAN)") ∧
  _get_cast_expression_for_sql_expr x "decimal" = inr ("CAST(" ++ x ++ " AS DECIMAL)") ∧
  _get_cast_expression_for_sql_expr x "text" = inr ("CAST(" ++ x ++ " AS STRING)") ∧
  _get_cast_expression_for_sql_expr x "int" ≠ inr ("CAST(" ++ x ++ " AS INT64)") ∧
  _get_cast_expression_for_sql_expr x "Integer" ≠ inr ("CAST(" ++ x ++ " AS INT64)") ∧
  _get_cast_expression_for_sql_expr x "int" ≠ _get_cast_expression_for_sql_expr x "Integer".
Proof.
  assert (Hpass : ∀ ct, bool_decide (upper ct ∈ valid_types) = true →
            _get_cast_expression_for_sql_expr x ct = inr (cast_text x (upper ct))).
  { intros ct Hct. apply cast_valid_passthrough. by apply bool_decide_eq_true in Hct. }
  rewrite !Hpass by (vm_compute; reflexivity).
  change ("CAST(" ++ x ++ " AS INT64)") with (cast_text x "INT64").
  change (upper "int") with "INT". change (upper "Integer") with "INTEGER".
  repeat split; try reflexivity.
  - intros Heq. assert (Heq' : cast_text x "INT" = cast_text x "INT64") by congruence.
    apply cast_text_inj in Heq'. discriminate.
  - intros Heq. assert (Heq' : cast_text x "INTEGER" = cast_text x "INT64") by congruence.
    apply cast_text_inj in Heq'. discriminate.
  - intros Heq. assert (Heq' : cast_text x "INT" = cast_text x "INTEGER") by congruence.
    apply cast_text_inj in Heq'. discriminate.
Qed.

(** C2, as stated, fails: the uppercased, synonym-mapped form of "varchar"
    is outside the eleven names of the specification, and the resolver
    returns a CAST string for it. *)
Lemma cast_varchar_accepted :
  (synonym_mapped "varchar" ∉ spec_supported_set) ∧
  _get_cast_expression_for_sql_expr "x" "varchar" = inr "CAST(x AS VARCHAR)".
Proof.
  split.
  - apply (bool_decide_unpack _). vm_compute. exact I.
  - vm_compute. reflexivity.
Qed.

(** C2, amended: a requested type written in ASCII whose uppercased,
    synonym-mapped form is not one of the twenty-one names of [valid_types]
    is rejected with a ValueError; the message quotes the request, its
    normalized form and the names of [valid_types]; no CAST string is
    returned. *)
Theorem cast_unsupported_raises (x cast_type : string) :
  isascii cast_type = true →
  synonym_mapped cast_type ∉ valid_types →
  _get_cast_expression_for_sql_expr x cast_type =
    inl (ValueError
      ("Unsupported cast type: '" ++ cast_type ++ "'. Normalized to '" ++
       synonym_mapped cast_type ++ "'. Supported/checked types are: " ++
       "STRING, VARCHAR, FLOAT64, DOUBLE, FLOAT, BOOL, BOOLEAN, DATE, TIMESTAMP, " ++
       "INT64, INTEGER, BIGINT, INT, SMALLINT, TINYINT, BYTES, NUMERIC, DECIMAL, " ++
       "BIGNUMERIC, JSON, TIME"))
  ∧ ∀ s, _get_cast_expression_for_sql_expr x cast_type ≠ inr s.
Proof.
  intros _ Hout. unfold synonym_mapped in *.
  assert (Hup : upper cast_type ∉ valid_types).
  { intros Hin. by apply Hout, mapped_valid. }
  unfold _get_cast_expression_for_sql_expr.
  apply py_in_false in Hup. apply py_in_false in Hout.
  rewrite Hup, Hout. simpl. split; [reflexivity | discriminate].
Qed.

Lemma cast_unsupported_raises_frobnicate :
  ∃ msg, _get_cast_expression_for_sql_expr "x" "frobnicate" = inl (ValueError msg)
         ∧ ∀ s, _get_cast_expression_for_sql_expr "x" "frobnicate" ≠ inr s.
Proof.
  eexists.
  apply (cast_unsupported_raises "x" "frobnicate"); [reflexivity|].
  apply (bool_decide_unpack _). vm_compute. exact I.
Defined.

(** ** Table names of the project-qualified dialect *)

Lemma str_split_nonempty sep s : str_split sep s ≠ [].
Proof. destruct s as [|c s]; simpl; [done|]. destruct (Ascii.eqb c sep); [done|].
  by destruct (str_split sep s). Qed.

(** Joining the parts with the separator gives the name back. *)
Lemma str_split_join sep s : join (String sep EmptyString) (str_split sep s) = s.
Proof.
  unfold join. induction s as [|c s IH]; simpl; [done|].
  destruct (Ascii.eqb_spec c sep) as [->|Hne].
  - pose proof (str_split_nonempty sep s) as Hnil.
    destruct (str_split sep s) as [|p ps]; [done|]. simpl in *. by rewrite IH.
  - pose proof (str_split_nonempty sep s) as Hnil.
    destruct (str_split sep s) as [|p ps]; [done|]. simpl in *.
    destruct ps; simpl in *; by rewrite <- IH.
Qed.

(** C8: a name of three dot-separated parts is returned unchanged; a name of
    two parts is prefixed with the client's project; a two-part name without a
    project (None or empty), and a name of any other number of parts, raise
    a ValueError. *)
Theorem parse_bigquery_table_name_cases (table_name : string) (client_project : option string) :
  (length (str_split "." table_name) = 3 →
     _parse_bigquery_table_name table_name client_project = inr table_name) ∧
  (∀ ds t p, str_split "." table_name = [ds; t] → client_project = Some p → p ≠ EmptyString →
     table_name = ds ++ "." ++ t ∧
     _parse_bigquery_table_name table_name client_project = inr (p ++ "." ++ ds ++ "." ++ t)) ∧
  (length (str_split "." table_name) = 2 →
   client_project = None ∨ client_project = Some EmptyString →
     _parse_bigquery_table_name table_name client_project =
       inl (ValueError ("Table name '" ++ table_name ++
         "' is missing project ID, and BigQuery client has no default project. " ++
         "Provide full name as 'project.dataset.table' or ensure client is initialized with a project."))) ∧
  (length (str_split "." table_name) ≠ 2 → length (str_split "." table_name) ≠ 3 →
     _parse_bigquery_table_name table_name client_project =
       inl (ValueError ("Invalid BigQuery table name format: '" ++ table_name ++
         "'. Expected [project.]dataset.table or dataset.table"))).
Proof.
  unfold _parse_bigquery_table_name.
  pose proof (str_split_join "." table_name) as Hjoin.
  set (parts := str_split "." table_name) in *.
  split; [|split; [|split]].
  - intros Hlen. by destruct parts as [|? [|? [|? [|? ?]]]].
  - intros ds t p Hparts -> Hp. rewrite Hparts in *. split.
    + by rewrite <- Hjoin.
    + simpl. destruct (String.eqb_spec p EmptyString) as [->|_]; [done|reflexivity].
  - intros Hlen Hproj. destruct parts as [|? [|? [|? ?]]]; try done.
    by destruct Hproj as [-> | ->].
  - intros H2 H3. by destruct parts as [|? [|? [|? [|? ?]]]].
Qed.

Lemma parse_bigquery_table_name_cases_witness :
  _parse_bigquery_table_name "p.ds.t" None = inr "p.ds.t" ∧
  _parse_bigquery_table_name "ds.t" (Some "proj") = inr "proj.ds.t" ∧
  (∃ e, _parse_bigquery_table_name "ds.t" None = inl (ValueError e)) ∧
  (∃ e, _parse_bigquery_table_name "a.b.c.d" (Some "proj") = inl (ValueError e)).
Proof.
  split; [|split; [|split]].
  - apply (proj1 (parse_bigquery_table_name_cases "p.ds.t" None)). reflexivity.
  - apply (proj1 (proj2 (parse_bigquery_table_name_cases "ds.t" (Some "proj"))) "ds" "t" "proj");
      [reflexivity | reflexivity | discriminate].
  - eexists.
    apply (proj1 (proj2 (proj2 (parse_bigquery_table_name_cases "ds.t" None))));
      [reflexivity | left; reflexivity].
  - eexists.
    apply (proj2 (proj2 (proj2 (parse_bigquery_table_name_cases "a.b.c.d" (Some "proj")))));
      vm_compute; congruence.
Defined.

(** ** Query builder *)

Lemma elem_of_common set_iter t1 t2 c :
  walks_sets set_iter →
  c ∈ common_schema_cols set_iter t1 t2 ↔ c ∈ t1 ∧ c ∈ t2.
Proof.
  intros Hwalk. unfold common_schema_cols. rewrite (Hwalk _).
  rewrite elem_of_elements, elem_of_intersection, !elem_of_list_to_set. done.
Qed.

Lemma common_perm iter1 iter2 t1 t2 :
  walks_sets iter1 → walks_sets iter2 →
  common_schema_cols iter1 t1 t2 ≡ₚ common_schema_cols iter2 t1 t2.
Proof. intros H1 H2. unfold common_schema_cols. by rewrite (H1 _), (H2 _). Qed.

Lemma check_pk_common_ext common1 common2 pk_cols :
  (∀ c, c ∈ common1 ↔ c ∈ common2) →
  check_pk_common common1 pk_cols = check_pk_common common2 pk_cols.
Proof.
  intros Hext. induction pk_cols as [|pk rest IH]; simpl; [done|].
  assert (Hin : py_in pk common1 = py_in pk common2).
  { unfold py_in. apply bool_decide_ext, Hext. }
  by rewrite Hin, IH.
Qed.

Lemma validate_pk_cols_ext common1 common2 pk_cols :
  (∀ c, c ∈ common1 ↔ c ∈ common2) →
  validate_pk_cols common1 pk_cols = validate_pk_cols common2 pk_cols.
Proof.
  intros Hext. destruct pk_cols; simpl; [done|].
  by apply (check_pk_common_ext _ _ (_ :: _)).
Qed.

(** The sorted list does not depend on the order of the list it is built
    from. *)
Lemma compare_cols_of_perm common1 common2 pk_cols ignore_cols :
  common1 ≡ₚ common2 →
  compare_cols_of common1 pk_cols ignore_cols = compare_cols_of common2 pk_cols ignore_cols.
Proof.
  intros Hperm. unfold compare_cols_of.
  apply (Sorted_unique String.le); try apply Sorted_merge_sort; try apply _.
  by rewrite !merge_sort_Permutation, Hperm.
Qed.

Lemma check_pk_common_fails common pk_cols :
  (∃ c, c ∈ pk_cols ∧ (c ∉ common)) →
  ∃ c, c ∈ pk_cols ∧ (c ∉ common) ∧
       check_pk_common common pk_cols = inl (ValueError (pk_not_common_msg c)).
Proof.
  induction pk_cols as [|pk rest IH]; intros (c & Hc & Hout).
  { by apply elem_of_nil in Hc. }
  simpl. destruct (py_in pk common) eqn:Hin; simpl.
  - apply py_in_true in Hin.
    apply elem_of_cons in Hc as [-> | Hc]; [done|].
    destruct IH as (c' & Hc' & Hout' & Heq); [by exists c|].
    exists c'. split; [by right|done].
  - apply py_in_false in Hin. exists pk. split; [by left|done].
Qed.


Lemma elem_of_compare_cols_of common pk_cols ignore_cols c :
  c ∈ compare_cols_of common pk_cols ignore_cols ↔
  c ∈ common ∧ (c ∉ pk_cols) ∧ (c ∉ ignore_cols).
Proof.
  unfold compare_cols_of. rewrite merge_sort_Permutation, list_elem_of_filter. tauto.
Qed.

Lemma NoDup_common set_iter t1 t2 :
  walks_sets set_iter → NoDup (common_schema_cols set_iter t1 t2).
Proof.
  intros Hwalk. unfold common_schema_cols. rewrite (Hwalk _). apply NoDup_elements.
Qed.

(** C7: the result of the query builder (the query text, or the exception)
    is the same for every order in which the set of common columns is
    walked; the compare columns in it are sorted by [String.le], without
    repetition, and are the common columns that are neither key nor
    ignored. *)
Theorem build_query_deterministic (iter1 iter2 : gset string → list string)
    (db_type : string) (t1_cols_list t2_cols_list : list string)
    (table1_sql_ref table2_sql_ref : string) (pk_cols ignore_cols : list string)
    (scalar_casts : gmap string string) (limit : option Z) :
  walks_sets iter1 → walks_sets iter2 →
  build_query iter1 db_type t1_cols_list t2_cols_list table1_sql_ref table2_sql_ref
              pk_cols ignore_cols scalar_casts limit =
  build_query iter2 db_type t1_cols_list t2_cols_list table1_sql_ref table2_sql_ref
              pk_cols ignore_cols scalar_casts limit
  ∧ (∀ compare_cols query,
       build_query iter1 db_type t1_cols_list t2_cols_list table1_sql_ref table2_sql_ref
                   pk_cols ignore_cols scalar_casts limit = inr (compare_cols, query) →
       Sorted String.le compare_cols ∧ NoDup compare_cols ∧
       ∀ c, c ∈ compare_cols ↔
            c ∈ t1_cols_list ∧ c ∈ t2_cols_list ∧ (c ∉ pk_cols) ∧ (c ∉ ignore_cols)).
Proof.
  intros H1 H2. split.
  - unfold build_query.
    rewrite (validate_pk_cols_ext (common_schema_cols iter1 t1_cols_list t2_cols_list)
                                  (common_schema_cols iter2 t1_cols_list t2_cols_list)).
    2:{ intros c. by rewrite !elem_of_common. }
    by rewrite (compare_cols_of_perm _ _ _ _ (common_perm iter1 iter2 _ _ H1 H2)).
  - intros compare_cols query. unfold build_query.
    intros Hq.
    apply bind_inr in Hq as (_ & _ & Hq).
    apply bind_inr in Hq as (exprs1 & _ & Hq).
    apply bind_inr in Hq as (exprs2 & _ & Hq).
    injection Hq as <- _. split; [|split].
    + apply Sorted_merge_sort, _.
    + unfold compare_cols_of. rewrite merge_sort_Permutation.
      by apply NoDup_filter, NoDup_common.
    + intros c. rewrite elem_of_compare_cols_of, elem_of_common by done. tauto.
Qed.

Lemma build_query_deterministic_witness :
  build_query elements "duckdb" ["id"; "name"; "value"] ["value"; "id"; "name"]
              "a" "b" ["id"] [] ∅ None =
  build_query (λ X, reverse (elements X)) "duckdb" ["id"; "name"; "value"]
              ["value"; "id"; "name"] "a" "b" ["id"] [] ∅ None
  ∧ (∀ compare_cols query,
       build_query elements "duckdb" ["id"; "name"; "value"] ["value"; "id"; "name"]
                   "a" "b" ["id"] [] ∅ None = inr (compare_cols, query) →
       Sorted String.le compare_cols ∧ NoDup compare_cols ∧
       ∀ c, c ∈ compare_cols ↔
            c ∈ ["id"; "name"; "value"] ∧ c ∈ ["value"; "id"; "name"] ∧
            (c ∉ ["id"]) ∧ (c ∉ @nil string)).
Proof.
  apply (build_query_deterministic elements (λ X, reverse (elements X))).
  - intros X. reflexivity.
  - intros X. apply reverse_Permutation.
Defined.

(** C6: when the column lists of both tables were obtained and the primary
    key is empty or holds a column that is not common to both tables, the
    key check raises a ValueError; the query builder and the whole
    comparison end with that exception, whatever casts were requested, so
    no query text is produced. *)
Theorem pk_validation_aborts {V : Type} `{DbValue V}
    (set_iter : gset string → list string) (db_type : string) (conn : connection V)
    (table1_name table2_name : string) (t1_cols_list t2_cols_list : list string)
    (table1_sql_ref table2_sql_ref : string) (pk_cols ignore_cols : list string)
    (scalar_casts : gmap string string) (limit : option Z) :
  walks_sets set_iter →
  resolve_tables db_type conn table1_name table2_name =
    inr (t1_cols_list, t2_cols_list, table1_sql_ref, table2_sql_ref) →
  pk_cols = [] ∨ (∃ c, c ∈ pk_cols ∧ ¬ (c ∈ t1_cols_list ∧ c ∈ t2_cols_list)) →
  ∃ msg,
    (pk_cols = [] ∧
       msg = "Primary key columns (--pk-cols) must be specified and not empty."
     ∨ ∃ c, c ∈ pk_cols ∧ ¬ (c ∈ t1_cols_list ∧ c ∈ t2_cols_list) ∧
            msg = "Primary key column '" ++ c ++
                  "' not found as a common column in both tables.") ∧
    validate_pk_cols (common_schema_cols set_iter t1_cols_list t2_cols_list) pk_cols =
      inl (ValueError msg) ∧
    build_query set_iter db_type t1_cols_list t2_cols_list table1_sql_ref table2_sql_ref
                pk_cols ignore_cols scalar_casts limit = inl (ValueError msg) ∧
    compare_tables_internal set_iter db_type conn table1_name table2_name
                            pk_cols ignore_cols scalar_casts limit = inl (ValueError msg).
Proof.
  intros Hwalk Hres Hbad.
  assert (Hval : ∃ msg,
    (pk_cols = [] ∧ msg = empty_pk_msg
     ∨ ∃ c, c ∈ pk_cols ∧ ¬ (c ∈ t1_cols_list ∧ c ∈ t2_cols_list) ∧
            msg = pk_not_common_msg c) ∧
    validate_pk_cols (common_schema_cols set_iter t1_cols_list t2_cols_list) pk_cols =
      inl (ValueError msg)).
  { destruct pk_cols as [|pk rest].
    - exists empty_pk_msg. split; [by left|done].
    - destruct Hbad as [?|(c & Hc & Hout)]; [done|].
      destruct (check_pk_common_fails
                  (common_schema_cols set_iter t1_cols_list t2_cols_list) (pk :: rest))
        as (c' & Hc' & Hout' & Heq).
      { exists c. split; [done|]. by rewrite elem_of_common. }
      exists (pk_not_common_msg c'). split; [|done].
      right. exists c'. split; [done|]. split; [|done]. by rewrite <- (elem_of_common set_iter). }
  destruct Hval as (msg & Hmsg & Hval). exists msg.
  assert (Hbuild : build_query set_iter db_type t1_cols_list t2_cols_list table1_sql_ref
            table2_sql_ref pk_cols ignore_cols scalar_casts limit = inl (ValueError msg)).
  { unfold build_query. by apply bind_inl. }
  repeat split; try done.
  unfold compare_tables_internal. rewrite Hres. cbn. by rewrite Hbuild.
Qed.

Lemma pk_validation_aborts_witness :
  ∃ msg,
    compare_tables_internal elements "duckdb" demo_conn "table_A" "table_B"
                            ["user_id"] [] ∅ None = inl (ValueError msg)
    ∧ compare_tables_internal elements "duckdb" demo_conn "table_A" "table_B"
                            [] [] ∅ None
      = inl (ValueError "Primary key columns (--pk-cols) must be specified and not empty.").
Proof.
  destruct (pk_validation_aborts elements "duckdb" demo_conn "table_A" "table_B"
              ["id"; "name"; "value"] ["id"; "name"; "value"]
              (dquote ++ "table_A" ++ dquote) (dquote ++ "table_B" ++ dquote)
              ["user_id"] [] ∅ None) as (msg & _ & _ & _ & Hrun).
  { intros X. reflexivity. }
  { reflexivity. }
  { right. exists "user_id". split; [by left|]. intros [Hin _]. revert Hin.
    apply (bool_decide_unpack _). vm_compute. exact I. }
  exists msg. split; [exact Hrun|].
  destruct (pk_validation_aborts elements "duckdb" demo_conn "table_A" "table_B"
              ["id"; "name"; "value"] ["id"; "name"; "value"]
              (dquote ++ "table_A" ++ dquote) (dquote ++ "table_B" ++ dquote)
              [] [] ∅ None) as (msg' & Hmsg & _ & _ & Hrun').
  { intros X. reflexivity. }
  { reflexivity. }
  { left. reflexivity. }
  destruct Hmsg as [[_ ->] | (c & Hc & _)]; [exact Hrun'|].
  by apply elem_of_nil in Hc.
Defined.

(** ** Result reconciler *)

Section ReconcilerFacts.
Context {V : Type} `{DbValue V}.
Implicit Types (row : gmap string (cell V)) (d : gmap string (diff_val V)).

Lemma dict_truthy_true {A} (m : gmap string A) : dict_truthy m = true ↔ m ≠ ∅.
Proof.
  unfold dict_truthy. rewrite negb_true_iff, Nat.eqb_neq. apply map_size_non_empty_iff.
Qed.

Lemma dict_truthy_false {A} (m : gmap string A) : dict_truthy m = false ↔ m = ∅.
Proof.
  unfold dict_truthy. rewrite negb_false_iff, Nat.eqb_eq. apply map_size_empty_iff.
Qed.

(** A loop that stores [g col] under every column of the list. *)
Lemma foldl_insert_lookup {A} (g : string → A) cols (m : gmap string A) col :
  foldl (λ m c, <[c := g c]> m) m cols !! col =
  if decide (col ∈ cols) then Some (g col) else m !! col.
Proof.
  revert m. induction cols as [|c cols IH]; intros m.
  { case_decide as Hin; [by apply elem_of_nil in Hin|done]. }
  cbn [foldl]. rewrite IH.
  destruct (decide (col ∈ cols)) as [Hin|Hout].
  - case_decide as Hin'; [done|]. destruct Hin'. by right.
  - destruct (decide (c = col)) as [->|Hne].
    + rewrite lookup_insert_eq. case_decide as Hin'; [done|]. destruct Hin'. by left.
    + rewrite lookup_insert_ne by done. case_decide as Hin'; [|done].
      by apply elem_of_cons in Hin' as [?|?].
Qed.

Lemma foldl_insert_non_empty (g : string → diff_val V) cols d :
  cols ≠ [] ∨ d ≠ ∅ → foldl (λ d c, <[c := g c]> d) d cols ≠ ∅.
Proof.
  revert d. induction cols as [|c cols IH]; intros d Hne; simpl.
  { by destruct Hne. }
  apply IH. right. apply insert_non_empty.
Qed.

(** The loop of lines 367-379: what it leaves under a column. *)
Lemma value_diff_fold_lookup db row cols st col :
  (foldl (value_diff_step db row) st cols).1 !! col =
  if decide (col ∈ cols ∧ differs db row col = true)
  then Some (Pair (coerce db (py_get row ("t1_" ++ col)))
                  (coerce db (py_get row ("t2_" ++ col))))
  else st.1 !! col.
Proof.
  revert st. induction cols as [|c cols IH]; intros st.
  { case_decide as Hin; [|done]. destruct Hin as [Hin _]. by apply elem_of_nil in Hin. }
  cbn [foldl]. rewrite IH.
  destruct (decide (col ∈ cols ∧ differs db row col = true)) as [[Hin Hd]|Hno].
  { case_decide as Hin'; [done|]. destruct Hin'. split; [by right|done]. }
  unfold value_diff_step. fold (differs db row c).
  destruct (differs db row c) eqn:Hc; cbn [fst].
  - destruct (decide (c = col)) as [->|Hne].
    + rewrite lookup_insert_eq. case_decide as Hin'; [done|]. destruct Hin'.
      split; [by left|done].
    + rewrite lookup_insert_ne by done. case_decide as Hin'; [|done].
      destruct Hin' as [[?|?]%elem_of_cons ?]; [done|]. destruct Hno. by split.
  - case_decide as Hin'; [|done].
    destruct Hin' as [[->|?]%elem_of_cons Hd]; [congruence|]. destruct Hno. by split.
Qed.

(** The flag [has_value_diff] is set exactly when the mapping is not empty. *)
Lemma value_diff_fold_flag db row cols st :
  (st.2 = true ↔ st.1 ≠ ∅) →
  (foldl (value_diff_step db row) st cols).2 = true ↔
  (foldl (value_diff_step db row) st cols).1 ≠ ∅.
Proof.
  revert st. induction cols as [|c cols IH]; intros st Hst; simpl; [done|].
  apply IH. unfold value_diff_step.
  destruct (value_ne _ _); simpl; [|done].
  split; [intros _; apply insert_non_empty | done].
Qed.

Lemma forallb_existsb_negb {A} (p : A → bool) (l : list A) :
  forallb p l = true → existsb (λ x, negb (p x)) l = false.
Proof.
  induction l as [|a l IH]; simpl; [done|].
  intros [Ha Hl]%andb_true_iff. by rewrite Ha, IH.
Qed.

(** No row is both of table 1 only and of table 2 only. *)
Lemma presence_exclusive pk_cols row :
  is_t1_only pk_cols row = true → is_t2_only pk_cols row = false.
Proof.
  unfold is_t1_only, is_t2_only. intros [Hall _]%andb_true_iff.
  apply andb_false_iff. right. by apply forallb_existsb_negb in Hall.
Qed.

Lemma diff_row_t1 db pk_cols compare_cols row :
  is_t1_only pk_cols row = true →
  diff_row db pk_cols compare_cols row =
    (foldl (λ d c, <[c := Pair (py_get row ("t1_" ++ c)) None]> d) ∅ compare_cols,
     ["present_in_table1_only"]).
Proof. intros Hp. unfold diff_row. by rewrite Hp. Qed.

Lemma diff_row_t2 db pk_cols compare_cols row :
  is_t1_only pk_cols row = false → is_t2_only pk_cols row = true →
  diff_row db pk_cols compare_cols row =
    (foldl (λ d c, <[c := Pair None (py_get row ("t2_" ++ c))]> d) ∅ compare_cols,
     ["present_in_table2_only"]).
Proof. intros Hp1 Hp2. unfold diff_row. by rewrite Hp1, Hp2. Qed.

Lemma diff_row_both db pk_cols compare_cols row :
  is_t1_only pk_cols row = false → is_t2_only pk_cols row = false →
  diff_row db pk_cols compare_cols row =
    ((foldl (value_diff_step db row) (∅, false) compare_cols).1,
     if dict_truthy (foldl (value_diff_step db row) (∅, false) compare_cols).1
     then ["value_differences"] else []).
Proof.
  intros Hp1 Hp2. unfold diff_row. rewrite Hp1, Hp2.
  pose proof (value_diff_fold_flag db row compare_cols (∅, false)) as Hflag.
  destruct (foldl _ _ _) as [d h]. simpl in *.
  destruct h.
  - assert (Hd : dict_truthy d = true) by (apply dict_truthy_true, Hflag; done).
    by rewrite Hd.
  - assert (Hd : dict_truthy d = false).
    { apply dict_truthy_false. destruct (decide (d = ∅)) as [|Hne]; [done|].
      apply Hflag in Hne; done. }
    by rewrite Hd.
Qed.

Lemma reconcile_row_t1 db pk_cols compare_cols row :
  is_t1_only pk_cols row = true →
  reconcile_row db pk_cols compare_cols row =
    Some (<["diffs" := Diffs (<["_status" := Status "present_in_table1_only"]>
             (foldl (λ d c, <[c := Pair (py_get row ("t1_" ++ c)) None]> d) ∅ compare_cols))]>
          (pk_output_values pk_cols row)).
Proof.
  intros Hp. unfold reconcile_row. rewrite (right_id_L ∅ (∪)), (diff_row_t1 _ _ _ _ Hp).
  assert (Hin : py_in "present_in_table1_only" ["present_in_table1_only"] = true)
    by (vm_compute; reflexivity).
  by rewrite Hin, orb_true_r.
Qed.

Lemma reconcile_row_t2 db pk_cols compare_cols row :
  is_t1_only pk_cols row = false → is_t2_only pk_cols row = true →
  reconcile_row db pk_cols compare_cols row =
    Some (<["diffs" := Diffs (<["_status" := Status "present_in_table2_only"]>
             (foldl (λ d c, <[c := Pair None (py_get row ("t2_" ++ c))]> d) ∅ compare_cols))]>
          (pk_output_values pk_cols row)).
Proof.
  intros Hp1 Hp2. unfold reconcile_row.
  rewrite (right_id_L ∅ (∪)), (diff_row_t2 _ _ _ _ Hp1 Hp2).
  assert (Hin : py_in "present_in_table2_only" ["present_in_table2_only"] = true)
    by (vm_compute; reflexivity).
  by rewrite Hin, orb_true_r.
Qed.

Lemma reconcile_row_both db pk_cols compare_cols row :
  is_t1_only pk_cols row = false → is_t2_only pk_cols row = false →
  reconcile_row db pk_cols compare_cols row =
    if dict_truthy (foldl (value_diff_step db row) (∅, false) compare_cols).1
    then Some (<["diffs" := Diffs (<["_status" := Status "value_differences"]>
                  (foldl (value_diff_step db row) (∅, false) compare_cols).1)]>
               (pk_output_values pk_cols row))
    else None.
Proof.
  intros Hp1 Hp2. unfold reconcile_row.
  rewrite (right_id_L ∅ (∪)), (diff_row_both _ _ _ _ Hp1 Hp2).
  destruct (dict_truthy _); reflexivity.
Qed.

Lemma is_none_true {A} (o : option A) : is_none o = true ↔ o = None.
Proof. by destruct o. Qed.

Lemma is_t1_only_true pk_cols row :
  is_t1_only pk_cols row = true ↔
  Forall (λ pk, py_get row ("t2_" ++ pk) = None) pk_cols ∧
  Exists (λ pk, py_get row ("t1_" ++ pk) ≠ None) pk_cols.
Proof.
  unfold is_t1_only. rewrite andb_true_iff.
  rewrite forallb_forall, existsb_exists, Forall_forall, Exists_exists.
  setoid_rewrite <- list_elem_of_In. setoid_rewrite is_none_true.
  setoid_rewrite negb_true_iff. split; intros [Hall (pk & Hpk & Hsome)]; (split; [done|]);
    exists pk; (split; [done|]); destruct (py_get row ("t1_" ++ pk)); done.
Qed.

Lemma is_t2_only_true pk_cols row :
  is_t2_only pk_cols row = true ↔
  Forall (λ pk, py_get row ("t1_" ++ pk) = None) pk_cols ∧
  Exists (λ pk, py_get row ("t2_" ++ pk) ≠ None) pk_cols.
Proof.
  unfold is_t2_only. rewrite andb_true_iff.
  rewrite forallb_forall, existsb_exists, Forall_forall, Exists_exists.
  setoid_rewrite <- list_elem_of_In. setoid_rewrite is_none_true.
  setoid_rewrite negb_true_iff. split; intros [Hall (pk & Hpk & Hsome)]; (split; [done|]);
    exists pk; (split; [done|]); destruct (py_get row ("t2_" ++ pk)); done.
Qed.

(** [compare_tables_internal], lines 354-364 and 383-387: a row whose side-2
    key values are all absent and which has a side-1 key value is emitted
    with the status present_in_table1_only, and its mapping sends every
    compare column other than "_status" to a pair with an absent second
    element; the same holds with the sides swapped; no row is classified as
    both. *)
Theorem presence_only_rows (db_type : string) (pk_cols compare_cols : list string)
    (row : gmap string (cell V)) :
  (Forall (λ pk, py_get row ("t2_" ++ pk) = None) pk_cols →
   Exists (λ pk, py_get row ("t1_" ++ pk) ≠ None) pk_cols →
   ∃ e d, reconcile_row db_type pk_cols compare_cols row = Some e ∧
          e !! "diffs" = Some (Diffs d) ∧
          d !! "_status" = Some (Status "present_in_table1_only") ∧
          ∀ col, col ∈ compare_cols → col ≠ "_status" →
                 d !! col = Some (Pair (py_get row ("t1_" ++ col)) None)) ∧
  (Forall (λ pk, py_get row ("t1_" ++ pk) = None) pk_cols →
   Exists (λ pk, py_get row ("t2_" ++ pk) ≠ None) pk_cols →
   ∃ e d, reconcile_row db_type pk_cols compare_cols row = Some e ∧
          e !! "diffs" = Some (Diffs d) ∧
          d !! "_status" = Some (Status "present_in_table2_only") ∧
          ∀ col, col ∈ compare_cols → col ≠ "_status" →
                 d !! col = Some (Pair None (py_get row ("t2_" ++ col)))) ∧
  ¬ (is_t1_only pk_cols row = true ∧ is_t2_only pk_cols row = true).
Proof.
  split; [|split].
  - intros Hall Hex.
    assert (Hp : is_t1_only pk_cols row = true) by (by apply is_t1_only_true).
    eexists _, _. split; [by apply reconcile_row_t1|].
    split; [by rewrite lookup_insert_eq|]. split; [by rewrite lookup_insert_eq|].
    intros col Hin Hne. rewrite lookup_insert_ne by done.
    rewrite (foldl_insert_lookup (λ c, Pair (py_get row ("t1_" ++ c)) None)).
    by rewrite decide_True.
  - intros Hall Hex.
    assert (Hp2 : is_t2_only pk_cols row = true) by (by apply is_t2_only_true).
    assert (Hp1 : is_t1_only pk_cols row = false).
    { destruct (is_t1_only pk_cols row) eqn:Hp1; [|done].
      apply presence_exclusive in Hp1. congruence. }
    eexists _, _. split; [by apply reconcile_row_t2|].
    split; [by rewrite lookup_insert_eq|]. split; [by rewrite lookup_insert_eq|].
    intros col Hin Hne. rewrite lookup_insert_ne by done.
    rewrite (foldl_insert_lookup (λ c, Pair None (py_get row ("t2_" ++ c)))).
    by rewrite decide_True.
  - intros [Hp1 Hp2]. apply presence_exclusive in Hp1. congruence.
Qed.

(** The loop of lines 279-284 builds one condition per compare column, in
    the order of the columns. *)
Lemma diff_conditions_list_map db_type compare_cols :
  diff_conditions_list db_type compare_cols = map (diff_condition db_type) compare_cols.
Proof.
  unfold diff_conditions_list.
  enough (Hgen : ∀ acc, foldl (λ acc col, (acc ++ [diff_condition db_type col])%list)
                          acc compare_cols
                        = (acc ++ map (diff_condition db_type) compare_cols)%list)
    by apply (Hgen []).
  induction compare_cols as [|c cols IH]; intros acc; simpl.
  - by rewrite app_nil_r.
  - by rewrite IH, <- app_assoc.
Qed.

Lemma coerce_None db_type : coerce db_type (None : cell V) = None.
Proof. unfold coerce. by destruct (String.eqb _ _). Qed.

Lemma coerce_Some db_type (v : V) : ∃ v', coerce db_type (Some v) = Some v'.
Proof.
  unfold coerce. destruct (String.eqb _ _); [|by eexists].
  destruct (is_primitive v); by eexists.
Qed.

(** [compare_tables_internal], lines 279-284 and 365-387: in a row that is
    neither of table 1 only nor of table 2 only, a compare column other than
    "_status" whose two values are both null is not a key of the emitted
    mapping; when exactly one of them is null the row is emitted and the
    column is mapped to the pair of the two (coerced) values.  The filter of
    the query has one IS DISTINCT FROM condition per compare column. *)
Theorem null_safe_value_diffs (db_type : string) (pk_cols compare_cols : list string)
    (row : gmap string (cell V)) (col : string) :
  is_t1_only pk_cols row = false → is_t2_only pk_cols row = false →
  col ∈ compare_cols → col ≠ "_status" →
  (py_get row ("t1_" ++ col) = None → py_get row ("t2_" ++ col) = None →
   ∀ e d, reconcile_row db_type pk_cols compare_cols row = Some e →
          e !! "diffs" = Some (Diffs d) → d !! col = None) ∧
  (∀ v, py_get row ("t1_" ++ col) = None ∧ py_get row ("t2_" ++ col) = Some v ∨
        py_get row ("t1_" ++ col) = Some v ∧ py_get row ("t2_" ++ col) = None →
   ∃ e d, reconcile_row db_type pk_cols compare_cols row = Some e ∧
          e !! "diffs" = Some (Diffs d) ∧
          d !! col = Some (Pair (coerce db_type (py_get row ("t1_" ++ col)))
                                (coerce db_type (py_get row ("t2_" ++ col))))) ∧
  diff_conditions_list db_type compare_cols =
    map (λ c, "t1." ++ _quote_identifier ("t1_" ++ c) db_type ++
              " IS DISTINCT FROM t2." ++ _quote_identifier ("t2_" ++ c) db_type)
        compare_cols ∧
  (pk_cols ≠ [] →
   where_clause db_type pk_cols compare_cols =
     join " OR "
       [ "(" ++ join " OR " (diff_conditions_list db_type compare_cols) ++ ")";
         "(" ++ t1_only_conditions db_type pk_cols ++ ")";
         "(" ++ t2_only_conditions db_type pk_cols ++ ")" ]).
Proof.
  intros Hp1 Hp2 Hin Hne. split; [|split; [|split]]; cycle 3.
  { intros Hpk. unfold where_clause. rewrite diff_conditions_list_map.
    destruct compare_cols as [|c cols]; [by apply elem_of_nil in Hin|].
    by destruct pk_cols as [|pk pks]. }
  - intros Hv1 Hv2 e d. rewrite (reconcile_row_both _ _ _ _ Hp1 Hp2).
    destruct (dict_truthy _); [|done]. intros [= <-].
    rewrite lookup_insert_eq. intros [= <-].
    rewrite lookup_insert_ne by done. rewrite value_diff_fold_lookup.
    rewrite decide_False; [done|]. intros [_ Hd]. unfold differs in Hd.
    by rewrite Hv1, Hv2, coerce_None in Hd.
  - intros v Hv.
    assert (Hd : differs db_type row col = true).
    { unfold differs. destruct Hv as [[-> ->] | [-> ->]]; rewrite coerce_None;
        destruct (coerce_Some db_type v) as [v' ->]; done. }
    assert (Hlook : (foldl (value_diff_step db_type row) (∅, false) compare_cols).1 !! col =
              Some (Pair (coerce db_type (py_get row ("t1_" ++ col)))
                         (coerce db_type (py_get row ("t2_" ++ col))))).
    { rewrite value_diff_fold_lookup. by rewrite decide_True. }
    rewrite (reconcile_row_both _ _ _ _ Hp1 Hp2).
    assert (Htr : dict_truthy (foldl (value_diff_step db_type row) (∅, false) compare_cols).1
                  = true).
    { apply dict_truthy_true. intros Hempty. by rewrite Hempty, lookup_empty in Hlook. }
    rewrite Htr. eexists _, _. split; [done|]. split; [by rewrite lookup_insert_eq|].
    by rewrite lookup_insert_ne.
  - apply diff_conditions_list_map.
Qed.

(** What [compare_tables_internal] returns when no exception is raised. *)
Lemma compare_tables_internal_inr set_iter db_type (conn : connection V)
    table1_name table2_name pk_cols ignore_cols scalar_casts limit out :
  compare_tables_internal set_iter db_type conn table1_name table2_name
                          pk_cols ignore_cols scalar_casts limit = inr out →
  ∃ t1_cols_list t2_cols_list table1_sql_ref table2_sql_ref query names rows,
    resolve_tables db_type conn table1_name table2_name =
      inr (t1_cols_list, t2_cols_list, table1_sql_ref, table2_sql_ref) ∧
    build_query set_iter db_type t1_cols_list t2_cols_list table1_sql_ref table2_sql_ref
                pk_cols ignore_cols scalar_casts limit =
      inr (compare_cols_of (common_schema_cols set_iter t1_cols_list t2_cols_list)
                           pk_cols ignore_cols, query) ∧
    run_query conn query = inr (names, rows) ∧
    out = reconcile db_type pk_cols
            (compare_cols_of (common_schema_cols set_iter t1_cols_list t2_cols_list)
                             pk_cols ignore_cols) names rows.
Proof.
  unfold compare_tables_internal. intros Hrun.
  apply bind_inr in Hrun as ([[[t1 t2] r1] r2] & Hres & Hrun).
  apply bind_inr in Hrun as ([cc query] & Hbuild & Hrun).
  apply bind_inr in Hrun as ([names rows] & Hq & Hrun).
  injection Hrun as <-.
  assert (Hcc : cc = compare_cols_of (common_schema_cols set_iter t1 t2) pk_cols ignore_cols).
  { unfold build_query in Hbuild.
    apply bind_inr in Hbuild as (_ & _ & Hbuild).
    apply bind_inr in Hbuild as (? & _ & Hbuild).
    apply bind_inr in Hbuild as (? & _ & Hbuild).
    by injection Hbuild as <- _. }
  subst cc. by exists t1, t2, r1, r2, query, names, rows.
Qed.

Lemma elem_of_reconcile db_type pk_cols compare_cols names rows e :
  e ∈ reconcile db_type pk_cols compare_cols names rows ↔
  ∃ row_tuple, row_tuple ∈ rows ∧
    reconcile_row db_type pk_cols compare_cols (row_dict_of names row_tuple) = Some e.
Proof. unfold reconcile. apply list_elem_of_omap. Qed.

(** The status of an emitted row, by the branch that produced it. *)
Lemma reconcile_row_status db_type pk_cols compare_cols row e :
  reconcile_row db_type pk_cols compare_cols row = Some e →
  ∃ s, (diff_row db_type pk_cols compare_cols row).2 = [s] ∧ has_status e s ∧
    (s = "present_in_table1_only" ∧ is_t1_only pk_cols row = true
     ∨ s = "present_in_table2_only" ∧ is_t1_only pk_cols row = false ∧
       is_t2_only pk_cols row = true
     ∨ s = "value_differences" ∧ is_t1_only pk_cols row = false ∧
       is_t2_only pk_cols row = false ∧
       (diff_row db_type pk_cols compare_cols row).1 ≠ ∅).
Proof.
  destruct (is_t1_only pk_cols row) eqn:Hp1; [|destruct (is_t2_only pk_cols row) eqn:Hp2].
  - rewrite (reconcile_row_t1 _ _ _ _ Hp1), (diff_row_t1 _ _ _ _ Hp1). intros [= <-].
    exists "present_in_table1_only". split; [done|]. split; [|by left].
    eexists. split; by rewrite lookup_insert_eq.
  - rewrite (reconcile_row_t2 _ _ _ _ Hp1 Hp2), (diff_row_t2 _ _ _ _ Hp1 Hp2). intros [= <-].
    exists "present_in_table2_only". split; [done|]. split; [|right; by left].
    eexists. split; by rewrite lookup_insert_eq.
  - rewrite (reconcile_row_both _ _ _ _ Hp1 Hp2), (diff_row_both _ _ _ _ Hp1 Hp2).
    destruct (dict_truthy _) eqn:Htr; [|done]. intros [= <-].
    exists "value_differences". split; [done|]. split.
    + eexists. split; by rewrite lookup_insert_eq.
    + right; right. repeat split; try done. by apply dict_truthy_true.
Qed.

Lemma has_status_functional (e : gmap string (entry_val V)) s1 s2 :
  has_status e s1 → has_status e s2 → s1 = s2.
Proof. intros (d1 & He1 & Hs1) (d2 & He2 & Hs2). congruence. Qed.

(** C9: every emitted entry comes from a row whose list of status
    indicators has exactly one element, one of the three status texts, and
    carries that text alone; value_differences is the status exactly of the
    rows that are neither of table 1 only nor of table 2 only. *)
Theorem emitted_status_unique (db_type : string) (pk_cols compare_cols names : list string)
    (rows : list (list (cell V))) (e : gmap string (entry_val V)) :
  e ∈ reconcile db_type pk_cols compare_cols names rows →
  ∃ row_tuple s,
    row_tuple ∈ rows ∧
    (diff_row db_type pk_cols compare_cols (row_dict_of names row_tuple)).2 = [s] ∧
    has_status e s ∧
    (∀ s', has_status e s' → s' = s) ∧
    (s = "value_differences" ∨ s = "present_in_table1_only" ∨
     s = "present_in_table2_only") ∧
    (s = "value_differences" ↔
       is_t1_only pk_cols (row_dict_of names row_tuple) = false ∧
       is_t2_only pk_cols (row_dict_of names row_tuple) = false) ∧
    (s = "present_in_table1_only" ↔
       is_t1_only pk_cols (row_dict_of names row_tuple) = true).
Proof.
  intros (row_tuple & Hrow & Hemit)%elem_of_reconcile.
  destruct (reconcile_row_status _ _ _ _ _ Hemit) as (s & Hst & Hhas & Hcase).
  exists row_tuple, s. split; [done|]. split; [done|]. split; [done|].
  split; [intros s' Hs'; by apply (has_status_functional e)|].
  destruct Hcase as [[-> Hp1] | [(-> & Hp1 & Hp2) | (-> & Hp1 & Hp2 & _)]];
    rewrite Hp1; try rewrite Hp2; (split; [tauto|]); split; split; try done;
    try (by intros [? ?]).
Qed.

(** C5: an entry is emitted only for a row whose mapping of differences is
    not empty or whose status is one of the two presence-only texts; with
    no compare column every emitted entry is presence-only and never has
    the status value_differences, for the reconciler and for the whole
    comparison. *)
Theorem emitted_needs_diff_or_presence (db_type : string) (pk_cols compare_cols : list string) :
  (∀ row e, reconcile_row db_type pk_cols compare_cols row = Some e →
     (diff_row db_type pk_cols compare_cols row).1 ≠ ∅ ∨
     (diff_row db_type pk_cols compare_cols row).2 = ["present_in_table1_only"] ∨
     (diff_row db_type pk_cols compare_cols row).2 = ["present_in_table2_only"]) ∧
  (∀ names rows e, e ∈ reconcile db_type pk_cols [] names rows →
     (has_status e "present_in_table1_only" ∨ has_status e "present_in_table2_only") ∧
     ¬ has_status e "value_differences") ∧
  (∀ set_iter (conn : connection V) table1_name table2_name ignore_cols scalar_casts limit
     t1_cols_list t2_cols_list table1_sql_ref table2_sql_ref out,
     resolve_tables db_type conn table1_name table2_name =
       inr (t1_cols_list, t2_cols_list, table1_sql_ref, table2_sql_ref) →
     compare_cols_of (common_schema_cols set_iter t1_cols_list t2_cols_list)
                     pk_cols ignore_cols = [] →
     compare_tables_internal set_iter db_type conn table1_name table2_name
                             pk_cols ignore_cols scalar_casts limit = inr out →
     ∀ e, e ∈ out →
       (has_status e "present_in_table1_only" ∨ has_status e "present_in_table2_only") ∧
       ¬ has_status e "value_differences").
Proof.
  assert (Hempty : ∀ names rows e, e ∈ reconcile db_type pk_cols [] names rows →
     (has_status e "present_in_table1_only" ∨ has_status e "present_in_table2_only") ∧
     ¬ has_status e "value_differences").
  { intros names rows e (row_tuple & _ & Hemit)%elem_of_reconcile.
    destruct (reconcile_row_status _ _ _ _ _ Hemit) as (s & _ & Hhas & Hcase).
    destruct Hcase as [[-> _] | [(-> & _) | (-> & Hp1 & Hp2 & Hne)]].
    - split; [by left|]. intros Hv.
      by pose proof (has_status_functional _ _ _ Hhas Hv).
    - split; [by right|]. intros Hv.
      by pose proof (has_status_functional _ _ _ Hhas Hv).
    - by rewrite (diff_row_both _ _ _ _ Hp1 Hp2) in Hne. }
  split; [|split; [done|]].
  - intros row e Hemit.
    destruct (reconcile_row_status _ _ _ _ _ Hemit) as (s & Hst & _ & Hcase).
    rewrite Hst.
    destruct Hcase as [[-> _] | [(-> & _) | (-> & _ & _ & Hne)]]; auto.
  - intros set_iter conn table1_name table2_name ignore_cols scalar_casts limit
      t1 t2 r1 r2 out Hres Hcc Hrun e He.
    apply compare_tables_internal_inr in Hrun
      as (t1' & t2' & r1' & r2' & query & names & rows & Hres' & _ & _ & ->).
    rewrite Hres in Hres'. injection Hres' as <- <- <- <-.
    rewrite Hcc in He. by apply (Hempty names rows).
Qed.

Lemma pk_output_values_lookup pk_cols row k :
  pk_output_values pk_cols row !! k =
  if decide (k ∈ pk_cols) then Some (Field (py_get row k)) else None.
Proof.
  unfold pk_output_values.
  rewrite (foldl_insert_lookup (λ pk, Field (py_get row pk))).
  by rewrite lookup_empty.
Qed.

(** C10: the status text of an emitted entry is stored inside the mapping
    of column differences, under the key "_status"; the entry itself has no
    key other than "diffs" and the primary-key columns.  When "_status" is a
    compare column whose two values differ, in a row present on both sides,
    the pair recorded for that column is replaced by the status text. *)
Theorem status_stored_in_diffs (db_type : string) (pk_cols compare_cols : list string)
    (row : gmap string (cell V)) :
  (∀ e, reconcile_row db_type pk_cols compare_cols row = Some e →
     ∃ d, e !! "diffs" = Some (Diffs d) ∧
          d !! "_status" =
            Some (Status (join "," (diff_row db_type pk_cols compare_cols row).2)) ∧
          ∀ k, is_Some (e !! k) → k = "diffs" ∨ k ∈ pk_cols) ∧
  ("_status" ∈ compare_cols →
   is_t1_only pk_cols row = false → is_t2_only pk_cols row = false →
   differs db_type row "_status" = true →
   (diff_row db_type pk_cols compare_cols row).1 !! "_status" =
     Some (Pair (coerce db_type (py_get row "t1__status"))
                (coerce db_type (py_get row "t2__status"))) ∧
   ∃ e d, reconcile_row db_type pk_cols compare_cols row = Some e ∧
          e !! "diffs" = Some (Diffs d) ∧
          d !! "_status" = Some (Status "value_differences")).
Proof.
  split.
  - intros e Hemit.
    destruct (reconcile_row_status _ _ _ _ _ Hemit) as (s & Hst & (d & Hd & Hs) & _).
    exists d. rewrite Hst. split; [done|]. split; [done|].
    intros k Hk. destruct (decide (k = "diffs")) as [|Hne]; [by left|]. right.
    assert (Hpk : is_Some (pk_output_values pk_cols row !! k)).
    { revert Hemit Hk. unfold reconcile_row. rewrite (right_id_L ∅ (∪)).
      destruct (diff_row _ _ _ _) as [dd st].
      destruct (_ || _ || _); [|done]. intros [= <-]. by rewrite lookup_insert_ne. }
    rewrite pk_output_values_lookup in Hpk. case_decide; [done|]. by destruct Hpk.
  - intros Hin Hp1 Hp2 Hd.
    assert (Hlook : (foldl (value_diff_step db_type row) (∅, false) compare_cols).1
                      !! "_status" =
              Some (Pair (coerce db_type (py_get row "t1__status"))
                         (coerce db_type (py_get row "t2__status")))).
    { rewrite value_diff_fold_lookup. by rewrite decide_True. }
    split.
    + by rewrite (diff_row_both _ _ _ _ Hp1 Hp2).
    + rewrite (reconcile_row_both _ _ _ _ Hp1 Hp2).
      assert (Htr : dict_truthy (foldl (value_diff_step db_type row) (∅, false)
                                       compare_cols).1 = true).
      { apply dict_truthy_true. intros Hempty. by rewrite Hempty, lookup_empty in Hlook. }
      rewrite Htr. eexists _, _. split; [done|]. split; by rewrite lookup_insert_eq.
Qed.

End ReconcilerFacts.

(** ** The reconciler on concrete rows *)

(** The scenario of two tables (id, name, value) with one changed row, one
    row of table 1 only and one row of table 2 only. *)
Example compare_demo_tables :
  (λ e, (e !! "id",
         match e !! "diffs" with
         | Some (Diffs d) => (d !! "_status", d !! "name", d !! "value")
         | _ => (None, None, None)
         end)) <$>
    (match compare_tables_internal elements "duckdb" demo_conn "table_A" "table_B"
                                   ["id"] [] ∅ None with
     | inr out => out
     | inl _ => []
     end) =
  [ (Some (Field (Some (DInt 2))),
     (Some (Status "value_differences"), None,
      Some (Pair (Some (DInt 200)) (Some (DInt 250)))));
    (Some (Field (Some (DInt 5))),
     (Some (Status "present_in_table1_only"),
      Some (Pair (Some (DStr "Eve")) None), Some (Pair (Some (DInt 500)) None)));
    (Some (Field (Some (DInt 4))),
     (Some (Status "present_in_table2_only"),
      Some (Pair None (Some (DStr "David"))), Some (Pair None (Some (DInt 400))))) ].
Proof. vm_compute. reflexivity. Qed.

(** C3: evaluated on the code, the claim fails for a compare column named
    "_status", in rows present on both sides.  With a null on side 1 and "x"
    on side 2, line 378 records the pair under "_status" and line 386
    overwrites it with the status text, so the entry under "_status" is not
    the pair; with nulls on both sides and another column differing, the
    key "_status" is present all the same. *)
Lemma status_column_null_safe_fails :
  (is_t1_only ["id"] status_row_null = false ∧
   is_t2_only ["id"] status_row_null = false ∧
   "_status" ∈ ["_status"; "a"] ∧
   py_get status_row_null "t1__status" = None ∧
   py_get status_row_null "t2__status" = Some (DStr "x") ∧
   (diff_row "duckdb" ["id"] ["_status"; "a"] status_row_null).1 !! "_status" =
     Some (Pair None (Some (DStr "x"))) ∧
   ∃ e d, reconcile_row "duckdb" ["id"] ["_status"; "a"] status_row_null = Some e ∧
          e !! "diffs" = Some (Diffs d) ∧
          d !! "_status" = Some (Status "value_differences") ∧
          d !! "_status" ≠ Some (Pair None (Some (DStr "x")))) ∧
  (is_t1_only ["id"] status_row_both_null = false ∧
   is_t2_only ["id"] status_row_both_null = false ∧
   py_get status_row_both_null "t1__status" = None ∧
   py_get status_row_both_null "t2__status" = None ∧
   ∃ e d, reconcile_row "duckdb" ["id"] ["_status"; "a"] status_row_both_null = Some e ∧
          e !! "diffs" = Some (Diffs d) ∧
          d !! "_status" ≠ None).
Proof.
  split.
  - repeat (split; [(vm_compute; reflexivity)
                     || (apply (bool_decide_unpack _); vm_compute; exact I)|]).
    eexists _, _. split; [vm_compute; reflexivity|]. split; [vm_compute; reflexivity|].
    split; [vm_compute; reflexivity|]. vm_compute. discriminate.
  - repeat (split; [vm_compute; reflexivity|]).
    eexists _, _. split; [vm_compute; reflexivity|]. split; [vm_compute; reflexivity|].
    vm_compute. discriminate.
Qed.

Lemma null_safe_value_diffs_witness :
  (∀ e d, reconcile_row "duckdb" ["id"] ["name"; "value"] null_row = Some e →
          e !! "diffs" = Some (Diffs d) → d !! "value" = None) ∧
  (∃ e d, reconcile_row "duckdb" ["id"] ["name"; "value"] null_row = Some e ∧
          e !! "diffs" = Some (Diffs d) ∧
          d !! "name" = Some (Pair (coerce "duckdb" (py_get null_row "t1_name"))
                                   (coerce "duckdb" (py_get null_row "t2_name")))).
Proof.
  split.
  - apply (null_safe_value_diffs "duckdb" ["id"] ["name"; "value"] null_row "value");
      try (vm_compute; reflexivity); try discriminate.
    apply (bool_decide_unpack _). vm_compute. exact I.
  - destruct (null_safe_value_diffs "duckdb" ["id"] ["name"; "value"] null_row "name")
      as (_ & Hone & _).
    { vm_compute. reflexivity. }
    { vm_compute. reflexivity. }
    { apply (bool_decide_unpack _). vm_compute. exact I. }
    { discriminate. }
    apply (Hone (DStr "Al")). left. split; vm_compute; reflexivity.
Defined.

(** C4: evaluated on the code, the claim fails for a compare column named
    "_status": in a row of table 1 only, line 360 records the pair of the
    side-1 value and None under "_status" and line 386 overwrites it with
    the status text, so that compare column is not mapped to a pair with an
    absent second element. *)
Lemma status_column_presence_fails :
  Forall (λ pk, py_get status_row_t1_only ("t2_" ++ pk) = None) ["id"] ∧
  Exists (λ pk, py_get status_row_t1_only ("t1_" ++ pk) ≠ None) ["id"] ∧
  "_status" ∈ ["_status"; "a"] ∧
  (diff_row "duckdb" ["id"] ["_status"; "a"] status_row_t1_only).1 !! "_status" =
    Some (Pair (Some (DStr "open")) None) ∧
  ∃ e d, reconcile_row "duckdb" ["id"] ["_status"; "a"] status_row_t1_only = Some e ∧
         e !! "diffs" = Some (Diffs d) ∧
         d !! "_status" = Some (Status "present_in_table1_only") ∧
         ∀ v1 v2, d !! "_status" ≠ Some (Pair v1 v2).
Proof.
  split; [|split; [|split; [|split]]].
  - repeat constructor.
  - apply Exists_cons_hd. vm_compute. discriminate.
  - apply (bool_decide_unpack _). vm_compute. exact I.
  - vm_compute. reflexivity.
  - eexists _, _. split; [vm_compute; reflexivity|]. split; [vm_compute; reflexivity|].
    split; [vm_compute; reflexivity|]. intros v1 v2. vm_compute. discriminate.
Qed.

Lemma presence_only_rows_witness :
  ∃ e d, reconcile_row "duckdb" ["id"] ["_status"; "a"] status_row_t1_only = Some e ∧
         e !! "diffs" = Some (Diffs d) ∧
         d !! "_status" = Some (Status "present_in_table1_only") ∧
         ∀ col, col ∈ ["_status"; "a"] → col ≠ "_status" →
                d !! col = Some (Pair (py_get status_row_t1_only ("t1_" ++ col)) None).
Proof.
  apply (presence_only_rows "duckdb" ["id"] ["_status"; "a"] status_row_t1_only).
  - repeat constructor.
  - apply Exists_cons_hd. vm_compute. discriminate.
Defined.

Lemma emitted_needs_diff_or_presence_witness :
  (has_status (default ∅ (demo_out_keys_only !! 0%nat)) "present_in_table1_only" ∨
   has_status (default ∅ (demo_out_keys_only !! 0%nat)) "present_in_table2_only") ∧
  ¬ has_status (default ∅ (demo_out_keys_only !! 0%nat)) "value_differences".
Proof.
  apply (proj1 (proj2 (emitted_needs_diff_or_presence "duckdb" ["id"] []))
           demo_names demo_rows).
  apply (list_elem_of_lookup_2 _ 0%nat). vm_compute. reflexivity.
Defined.

Lemma emitted_status_unique_witness :
  ∃ row_tuple s,
    row_tuple ∈ demo_rows ∧
    (diff_row "duckdb" ["id"] ["name"; "value"] (row_dict_of demo_names row_tuple)).2 = [s] ∧
    has_status (default ∅ (demo_out !! 0%nat)) s ∧
    (∀ s', has_status (default ∅ (demo_out !! 0%nat)) s' → s' = s) ∧
    (s = "value_differences" ∨ s = "present_in_table1_only" ∨
     s = "present_in_table2_only") ∧
    (s = "value_differences" ↔
       is_t1_only ["id"] (row_dict_of demo_names row_tuple) = false ∧
       is_t2_only ["id"] (row_dict_of demo_names row_tuple) = false) ∧
    (s = "present_in_table1_only" ↔
       is_t1_only ["id"] (row_dict_of demo_names row_tuple) = true).
Proof.
  apply (emitted_status_unique "duckdb" ["id"] ["name"; "value"] demo_names demo_rows).
  apply (list_elem_of_lookup_2 _ 0%nat). vm_compute. reflexivity.
Defined.

Lemma status_stored_in_diffs_witness :
  (diff_row "duckdb" ["id"] ["_status"; "a"] status_row_diff).1 !! "_status" =
    Some (Pair (Some (DStr "open")) (Some (DStr "closed"))) ∧
  ∃ e d, reconcile_row "duckdb" ["id"] ["_status"; "a"] status_row_diff = Some e ∧
         e !! "diffs" = Some (Diffs d) ∧
         d !! "_status" = Some (Status "value_differences").
Proof.
  apply (proj2 (status_stored_in_diffs "duckdb" ["id"] ["_status"; "a"] status_row_diff)).
  - apply (bool_decide_unpack _). vm_compute. exact I.
  - vm_compute. reflexivity.
  - vm_compute. reflexivity.
  - vm_compute. reflexivity.
Defined.

(** * Further properties of the code *)

(** ** Strings *)

Lemma append_cons (c : ascii) (a b : string) : String c a ++ b = String c (a ++ b).
Proof. reflexivity. Qed.

Lemma append_nil_l (b : string) : EmptyString ++ b = b.
Proof. reflexivity. Qed.

Lemma length_append (a b : string) :
  String.length (a ++ b) = String.length a + String.length b.
Proof.
  induction a as [|c a IH]; [done|].
  rewrite append_cons. simpl. by rewrite IH.
Qed.

(** Appending is cancellative on the right. *)
Lemma append_inj_r (s a b : string) : a ++ s = b ++ s → a = b.
Proof.
  revert b. induction a as [|c a IH]; intros [|c' b] Heq.
  - done.
  - apply (f_equal String.length) in Heq. rewrite !length_append in Heq. simpl in Heq. lia.
  - apply (f_equal String.length) in Heq. rewrite !length_append in Heq. simpl in Heq. lia.
  - rewrite !append_cons in Heq. injection Heq as -> Heq. f_equal. by apply IH.
Qed.

Lemma append_assoc (a b c : string) : (a ++ b) ++ c = a ++ b ++ c.
Proof.
  induction a as [|x a IH]; [done|]. rewrite !append_cons. by rewrite IH.
Qed.

(** ** Identifier quoting *)

(** [_quote_identifier]: in every dialect, and for an unknown dialect too,
    two identifiers with the same quoted form are equal; so are two columns
    whose aliases [<side>_<col>] have the same quoted form. *)
Theorem quote_identifier_injective (db_type side a b : string) :
  (_quote_identifier a db_type = _quote_identifier b db_type → a = b) ∧
  (_quote_identifier (side ++ "_" ++ a) db_type =
   _quote_identifier (side ++ "_" ++ b) db_type → a = b).
Proof.
  assert (Hinj : ∀ x y, _quote_identifier x db_type = _quote_identifier y db_type → x = y).
  { intros x y. unfold _quote_identifier.
    destruct (String.eqb db_type "duckdb"); [|destruct (String.eqb db_type "bigquery")].
    - intros Heq. apply (inj (String.app dquote)) in Heq. by apply append_inj_r in Heq.
    - intros Heq. apply (inj (String.app "`")) in Heq. by apply append_inj_r in Heq.
    - done. }
  split; [apply Hinj|].
  intros Heq. apply Hinj in Heq.
  apply (inj (String.app side)) in Heq. by apply (inj (String.app "_")) in Heq.
Qed.

Lemma quote_identifier_injective_witness :
  "name" = "name" ∧ "value" = "value".
Proof.
  split.
  - apply (proj1 (quote_identifier_injective "duckdb" "t1" "name" "name")). reflexivity.
  - apply (proj2 (quote_identifier_injective "bigquery" "t2" "value" "value")). reflexivity.
Defined.

(** ** Qualified table names *)

Lemma str_split_length_append sep a b :
  length (str_split sep (a ++ String sep b)) =
  length (str_split sep a) + length (str_split sep b).
Proof.
  induction a as [|c a IH].
  - rewrite append_nil_l. cbn. by rewrite Ascii.eqb_refl.
  - rewrite append_cons. cbn [str_split].
    destruct (Ascii.eqb c sep); cbn; [by rewrite IH|].
    pose proof (str_split_nonempty sep (a ++ String sep b)) as Hne1.
    pose proof (str_split_nonempty sep a) as Hne2.
    destruct (str_split sep (a ++ String sep b)) as [|p ps]; [done|].
    destruct (str_split sep a) as [|q qs]; [done|]. cbn in *. done.
Qed.

Lemma str_split_length_no_sep sep s :
  contains_char sep s = false ↔ length (str_split sep s) = 1.
Proof.
  induction s as [|c s IH]; cbn; [done|].
  pose proof (str_split_nonempty sep s) as Hne.
  destruct (Ascii.eqb c sep); cbn.
  - split; [done|]. destruct (str_split sep s); [done|]. cbn. lia.
  - rewrite IH. by destruct (str_split sep s) as [|p ps].
Qed.

(** [_parse_bigquery_table_name]: the name produced for a two-part name is
    itself accepted, unchanged, exactly when the project holds no dot; with
    a dot in the project (a domain-scoped project) the produced name is
    rejected as malformed. *)
Theorem parse_qualified_name_reparse (table_name p ds t : string) :
  str_split "." table_name = [ds; t] → p ≠ EmptyString →
  _parse_bigquery_table_name table_name (Some p) = inr (p ++ "." ++ ds ++ "." ++ t) ∧
  (contains_char "." p = false →
   ∀ cp, _parse_bigquery_table_name (p ++ "." ++ ds ++ "." ++ t) cp =
         inr (p ++ "." ++ ds ++ "." ++ t)) ∧
  (contains_char "." p = true →
   ∀ cp, _parse_bigquery_table_name (p ++ "." ++ ds ++ "." ++ t) cp =
         inl (ValueError ("Invalid BigQuery table name format: '" ++
                          (p ++ "." ++ ds ++ "." ++ t) ++
                          "'. Expected [project.]dataset.table or dataset.table"))).
Proof.
  intros Hparts Hp.
  assert (Hname : table_name = ds ++ "." ++ t).
  { rewrite <- (str_split_join "." table_name). by rewrite Hparts. }
  assert (Hlen : length (str_split "." (p ++ "." ++ ds ++ "." ++ t)) =
                 length (str_split "." p) + 2).
  { rewrite <- Hname. change (p ++ "." ++ table_name) with (p ++ String "." table_name).
    by rewrite str_split_length_append, Hparts. }
  split; [|split].
  - unfold _parse_bigquery_table_name. rewrite Hparts. cbn.
    by destruct (String.eqb_spec p EmptyString).
  - intros Hdot cp. apply str_split_length_no_sep in Hdot. rewrite Hdot in Hlen.
    unfold _parse_bigquery_table_name.
    by destruct (str_split "." (p ++ "." ++ ds ++ "." ++ t)) as [|? [|? [|? [|? ?]]]].
  - intros Hdot cp.
    assert (Hge : length (str_split "." p) ≠ 1).
    { intros H1. apply str_split_length_no_sep in H1. congruence. }
    pose proof (str_split_nonempty "." p) as Hne.
    unfold _parse_bigquery_table_name.
    destruct (str_split "." p) as [|? [|? ?]]; [done|done|]. cbn in Hlen.
    destruct (str_split "." (p ++ "." ++ ds ++ "." ++ t)) as [|? [|? [|? [|? ?]]]];
      cbn in Hlen; try lia; done.
Qed.

Lemma parse_qualified_name_reparse_witness :
  _parse_bigquery_table_name "ds.t" (Some "proj") = inr "proj.ds.t" ∧
  _parse_bigquery_table_name "proj.ds.t" None = inr "proj.ds.t" ∧
  ∃ msg, _parse_bigquery_table_name "example.com:proj.ds.t" None = inl (ValueError msg).
Proof.
  split; [|split].
  - apply (parse_qualified_name_reparse "ds.t" "proj" "ds" "t"); [reflexivity|discriminate].
  - apply (parse_qualified_name_reparse "ds.t" "proj" "ds" "t"); [reflexivity|discriminate|].
    reflexivity.
  - eexists.
    apply (proj2 (proj2 (parse_qualified_name_reparse "ds.t" "example.com:proj" "ds" "t"
                           eq_refl ltac:(discriminate)))).
    reflexivity.
Defined.

(** ** Casts and the query builder *)

Lemma bind_inl_inv {A B} (m : result A) (k : A → result B) (e : exn) :
  m ≫= k = inl e → m = inl e ∨ ∃ a, m = inr a ∧ k a = inl e.
Proof.
  destruct m as [e'|a]; intros Hk.
  - left. change (@inl exn B e' = inl e) in Hk. by injection Hk as ->.
  - right. by exists a.
Qed.

Lemma bind_inr_l {A B} (a : A) (k : A → result B) : inr a ≫= k = k a.
Proof. reflexivity. Qed.

(** The two outcomes of the cast resolver. *)
Lemma cast_result_cases (x cast_type : string) :
  (synonym_mapped cast_type ∈ valid_types ∧
   ∃ ty, _get_cast_expression_for_sql_expr x cast_type = inr (cast_text x ty)) ∨
  ((synonym_mapped cast_type ∉ valid_types) ∧
   _get_cast_expression_for_sql_expr x cast_type =
     inl (ValueError (unsupported_cast_msg cast_type (synonym_mapped cast_type)))).
Proof.
  unfold _get_cast_expression_for_sql_expr, synonym_mapped.
  destruct (decide (upper cast_type ∈ valid_types)) as [Hup|Hup].
  - rewrite (proj2 (py_in_true _ _) Hup). cbn [negb]. left.
    split; [by apply mapped_valid|eexists; reflexivity].
  - rewrite (proj2 (py_in_false _ _) Hup). cbn [negb].
    destruct (decide (default (upper cast_type) (mapping !! upper cast_type)
                      ∈ valid_types)) as [Hmap|Hmap].
    + rewrite (proj2 (py_in_true _ _) Hmap). cbn [negb]. left.
      split; [done|eexists; reflexivity].
    + rewrite (proj2 (py_in_false _ _) Hmap). cbn [negb]. right.
      split; [done|reflexivity].
Qed.

Lemma build_select_expression_cases (col side : string) (scalar_casts : gmap string string)
    (db_type : string) :
  (∃ s, _build_select_expression col side scalar_casts db_type = inr s) ∧
    (∀ ct, scalar_casts !! col = Some ct → synonym_mapped ct ∈ valid_types)
  ∨ ∃ ct, scalar_casts !! col = Some ct ∧ (synonym_mapped ct ∉ valid_types) ∧
          _build_select_expression col side scalar_casts db_type =
            inl (ValueError (unsupported_cast_msg ct (synonym_mapped ct))).
Proof.
  unfold _build_select_expression. destruct (scalar_casts !! col) as [ct|].
  - destruct (cast_result_cases (side ++ "." ++ _quote_identifier col db_type) ct)
      as [[Hin [ty ->]] | [Hout ->]].
    + left. split; [eexists; reflexivity|]. by intros ? [= <-].
    + right. exists ct. split; [done|]. split; [done|reflexivity].
  - left. split; [eexists; reflexivity|done].
Qed.

Lemma map_result_inr {A B} (f : A → result B) (l : list A) :
  (∀ x, x ∈ l → ∃ y, f x = inr y) → ∃ ys, map_result f l = inr ys.
Proof.
  induction l as [|a l IH]; intros Hall; cbn [map_result]; [eexists; reflexivity|].
  destruct (Hall a) as [b Hb]; [by left|]. rewrite Hb.
  destruct IH as [bs Hbs]; [intros x Hx; apply Hall; by right|].
  rewrite Hbs. eexists; reflexivity.
Qed.

Lemma map_result_inl {A B} (f : A → result B) (l : list A) (e : exn) :
  map_result f l = inl e → ∃ x, x ∈ l ∧ f x = inl e.
Proof.
  induction l as [|a l IH]; cbn [map_result]; [done|].
  destruct (f a) as [e'|b] eqn:Hfa.
  - intros [= <-]. exists a. split; [by left|done].
  - destruct (map_result f l) as [e'|bs]; [|done].
    intros [= <-]. destruct IH as (x & Hx & Hfx); [done|].
    exists x. split; [by right|done].
Qed.

Lemma map_result_ext {A B} (f g : A → result B) (l : list A) :
  (∀ x, x ∈ l → f x = g x) → map_result f l = map_result g l.
Proof.
  induction l as [|a l IH]; intros Hext; cbn [map_result]; [done|].
  rewrite (Hext a) by (by left). rewrite IH; [done|].
  intros x Hx. apply Hext. by right.
Qed.

Lemma map_result_inr_inv {A B} (f : A → result B) (l : list A) (ys : list B) :
  map_result f l = inr ys → ∀ x, x ∈ l → ∃ y, f x = inr y.
Proof.
  revert ys. induction l as [|a l IH]; intros ys Hmap x Hx; [by apply elem_of_nil in Hx|].
  cbn [map_result] in Hmap.
  apply bind_inr in Hmap as (b & Hb & Hmap). apply bind_inr in Hmap as (bs & Hbs & _).
  apply elem_of_cons in Hx as [->|Hx]; [by exists b|]. by apply (IH bs).
Qed.

(** [compare_tables_internal], lines 256-272, for casts written in ASCII:
    once the key check has passed, the query is built exactly when every
    cast requested for a selected column (a key or a compare column) names a
    valid type; an invalid cast on a selected column makes the build fail,
    and every failure is the ValueError of the cast resolver for such a
    column.  A cast requested for a column that is not selected is never
    looked at. *)
Theorem build_query_cast_validation (set_iter : gset string → list string)
    (db_type : string) (t1_cols_list t2_cols_list : list string)
    (table1_sql_ref table2_sql_ref : string) (pk_cols ignore_cols : list string)
    (scalar_casts : gmap string string) (limit : option Z) :
  validate_pk_cols (common_schema_cols set_iter t1_cols_list t2_cols_list) pk_cols = inr () →
  (∀ col ct,
     col ∈ (pk_cols ++ compare_cols_of (common_schema_cols set_iter t1_cols_list t2_cols_list)
                                      pk_cols ignore_cols)%list →
     scalar_casts !! col = Some ct → isascii ct = true) →
  ((∃ query,
      build_query set_iter db_type t1_cols_list t2_cols_list table1_sql_ref table2_sql_ref
                  pk_cols ignore_cols scalar_casts limit =
      inr (compare_cols_of (common_schema_cols set_iter t1_cols_list t2_cols_list)
                           pk_cols ignore_cols, query))
   ↔ (∀ col ct,
        col ∈ (pk_cols ++ compare_cols_of (common_schema_cols set_iter t1_cols_list t2_cols_list)
                                         pk_cols ignore_cols)%list →
        scalar_casts !! col = Some ct → synonym_mapped ct ∈ valid_types)) ∧
  ((∃ col ct,
      col ∈ (pk_cols ++ compare_cols_of (common_schema_cols set_iter t1_cols_list t2_cols_list)
                                       pk_cols ignore_cols)%list ∧
      scalar_casts !! col = Some ct ∧ (synonym_mapped ct ∉ valid_types)) →
   ∃ msg,
     build_query set_iter db_type t1_cols_list t2_cols_list table1_sql_ref table2_sql_ref
                 pk_cols ignore_cols scalar_casts limit = inl (ValueError msg)) ∧
  (∀ e,
     build_query set_iter db_type t1_cols_list t2_cols_list table1_sql_ref table2_sql_ref
                 pk_cols ignore_cols scalar_casts limit = inl e →
     ∃ col ct,
       col ∈ (pk_cols ++ compare_cols_of (common_schema_cols set_iter t1_cols_list t2_cols_list)
                                        pk_cols ignore_cols)%list ∧
       scalar_casts !! col = Some ct ∧ (synonym_mapped ct ∉ valid_types) ∧
       e = ValueError (unsupported_cast_msg ct (synonym_mapped ct))).
Proof.
  intros Hval _. unfold build_query. rewrite Hval, bind_inr_l.
  set (selected := (pk_cols ++ compare_cols_of _ pk_cols ignore_cols)%list).
  assert (Hside : ∀ side e,
            map_result (λ col, _build_select_expression col side scalar_casts db_type)
                       selected = inl e →
            ∃ col ct, col ∈ selected ∧ scalar_casts !! col = Some ct ∧
                      (synonym_mapped ct ∉ valid_types) ∧
                      e = ValueError (unsupported_cast_msg ct (synonym_mapped ct))).
  { intros side e (col & Hcol & Hf)%map_result_inl.
    destruct (build_select_expression_cases col side scalar_casts db_type)
      as [[[s Hs] _] | (ct & Hct & Hout & Hfail)]; [congruence|].
    exists col, ct. repeat split; try done. congruence. }
  assert (Hfail : ∀ e,
            (map_result (λ col, _build_select_expression col "t1" scalar_casts db_type) selected
             ≫= λ t1_select_exprs_for_cte,
               map_result (λ col, _build_select_expression col "t2" scalar_casts db_type) selected
               ≫= λ t2_select_exprs_for_cte,
                 ret (compare_cols_of (common_schema_cols set_iter t1_cols_list t2_cols_list)
                                      pk_cols ignore_cols,
                      query_text db_type t1_select_exprs_for_cte t2_select_exprs_for_cte
                                 table1_sql_ref table2_sql_ref pk_cols
                                 (compare_cols_of
                                    (common_schema_cols set_iter t1_cols_list t2_cols_list)
                                    pk_cols ignore_cols) limit)) = inl e →
            ∃ col ct, col ∈ selected ∧ scalar_casts !! col = Some ct ∧
                      (synonym_mapped ct ∉ valid_types) ∧
                      e = ValueError (unsupported_cast_msg ct (synonym_mapped ct))).
  { intros e [H1 | (ys1 & _ & [H2 | (ys2 & _ & Hret)]%bind_inl_inv)]%bind_inl_inv.
    - by apply (Hside "t1").
    - by apply (Hside "t2").
    - done. }
  assert (Hvalid : (∃ query,
            (map_result (λ col, _build_select_expression col "t1" scalar_casts db_type) selected
             ≫= λ t1_select_exprs_for_cte,
               map_result (λ col, _build_select_expression col "t2" scalar_casts db_type) selected
               ≫= λ t2_select_exprs_for_cte,
                 ret (compare_cols_of (common_schema_cols set_iter t1_cols_list t2_cols_list)
                                      pk_cols ignore_cols,
                      query_text db_type t1_select_exprs_for_cte t2_select_exprs_for_cte
                                 table1_sql_ref table2_sql_ref pk_cols
                                 (compare_cols_of
                                    (common_schema_cols set_iter t1_cols_list t2_cols_list)
                                    pk_cols ignore_cols) limit))
            = inr (compare_cols_of (common_schema_cols set_iter t1_cols_list t2_cols_list)
                                   pk_cols ignore_cols, query))
          ↔ (∀ col ct, col ∈ selected → scalar_casts !! col = Some ct →
                       synonym_mapped ct ∈ valid_types)).
  { split.
    - intros [query Hq] col ct Hcol Hct.
      apply bind_inr in Hq as (ys1 & H1 & _).
      destruct (map_result_inr_inv _ _ _ H1 col Hcol) as [y Hy].
      destruct (build_select_expression_cases col "t1" scalar_casts db_type)
        as [[_ Hok] | (ct' & Hct' & _ & Hbad)]; [by apply Hok|congruence].
    - intros Hall.
      assert (Hok : ∀ side, ∃ ys,
                map_result (λ col, _build_select_expression col side scalar_casts db_type)
                           selected = inr ys).
      { intros side. apply map_result_inr. intros col Hcol.
        destruct (build_select_expression_cases col side scalar_casts db_type)
          as [[Hs _] | (ct & Hct & Hout & _)]; [done|].
        destruct Hout. by apply (Hall col). }
      destruct (Hok "t1") as [ys1 ->]. destruct (Hok "t2") as [ys2 ->].
      rewrite !bind_inr_l. eexists; reflexivity. }
  split; [exact Hvalid|]. split; [|exact Hfail].
  intros (col & ct & Hcol & Hct & Hout).
  match goal with |- ∃ msg, ?b = _ => destruct b as [e|[cc query]] eqn:Hb end.
  - destruct (Hfail e eq_refl) as (col' & ct' & _ & _ & _ & ->). by eexists.
  - destruct Hout. apply (proj1 Hvalid) with col; [|done|done].
    exists query. f_equal. f_equal.
    apply bind_inr in Hb as (ys1 & _ & Hb). apply bind_inr in Hb as (ys2 & _ & Hb).
    by injection Hb as <- _.
Qed.

Lemma build_query_cast_validation_witness :
  (∃ query,
     build_query elements "duckdb" ["id"; "name"; "value"] ["id"; "name"; "value"]
                 "a" "b" ["id"] ["value"] {[ "value" := "frobnicate"; "name" := "text" ]} None
     = inr (["name"], query)) ∧
  (∃ msg,
     build_query elements "duckdb" ["id"; "name"; "value"] ["id"; "name"; "value"]
                 "a" "b" ["id"] [] {[ "value" := "frobnicate" ]} None
     = inl (ValueError msg)).
Proof.
  split.
  - destruct (build_query_cast_validation elements "duckdb" ["id"; "name"; "value"]
                ["id"; "name"; "value"] "a" "b" ["id"] ["value"]
                {[ "value" := "frobnicate"; "name" := "text" ]} None) as [Hok _].
    { vm_compute. reflexivity. }
    { intros col ct Hcol.
      assert (Hsel : col = "id" ∨ col = "name").
      { revert Hcol. vm_compute. intros Hcol.
        apply elem_of_cons in Hcol as [->|Hcol]; [by left|].
        apply elem_of_cons in Hcol as [->|Hcol]; [by right|]. by apply elem_of_nil in Hcol. }
      destruct Hsel as [-> | ->]; intros Hct; vm_compute in Hct; [discriminate|].
      injection Hct as <-. reflexivity. }
    destruct (proj2 Hok) as [query Hq].
    + intros col ct Hcol.
      assert (Hsel : col = "id" ∨ col = "name").
      { revert Hcol. vm_compute. intros Hcol.
        apply elem_of_cons in Hcol as [->|Hcol]; [by left|].
        apply elem_of_cons in Hcol as [->|Hcol]; [by right|]. by apply elem_of_nil in Hcol. }
      destruct Hsel as [-> | ->]; intros Hct; vm_compute in Hct; [discriminate|].
      injection Hct as <-. apply (bool_decide_unpack _). vm_compute. exact I.
    + exists query. exact Hq.
  - apply (build_query_cast_validation elements "duckdb" ["id"; "name"; "value"]
             ["id"; "name"; "value"] "a" "b" ["id"] [] {[ "value" := "frobnicate" ]} None).
    + vm_compute. reflexivity.
    + intros col ct Hcol Hct.
      destruct (decide (col = "value")) as [->|Hne].
      * vm_compute in Hct. injection Hct as <-. reflexivity.
      * rewrite lookup_singleton_ne in Hct by done. discriminate Hct.
    + exists "value", "frobnicate". split; [|split].
      * apply (bool_decide_unpack _). vm_compute. exact I.
      * vm_compute. reflexivity.
      * apply (bool_decide_unpack _). vm_compute. exact I.
Defined.

Lemma filter_ext_in {A} (P Q : A → Prop) `{!∀ x, Decision (P x), !∀ x, Decision (Q x)}
    (l : list A) :
  (∀ x, x ∈ l → (P x ↔ Q x)) → filter P l = filter Q l.
Proof.
  induction l as [|a l IH]; intros Hext; [done|].
  rewrite !filter_cons.
  assert (Ha : P a ↔ Q a) by (apply Hext; by left).
  rewrite IH by (intros x Hx; apply Hext; by right).
  destruct (decide (P a)), (decide (Q a)); tauto.
Qed.

Lemma build_select_expression_ext col side (casts1 casts2 : gmap string string) db_type :
  casts1 !! col = casts2 !! col →
  _build_select_expression col side casts1 db_type =
  _build_select_expression col side casts2 db_type.
Proof. intros Heq. unfold _build_select_expression. by rewrite Heq. Qed.

(** [compare_tables_internal], lines 256-328: the query, or the exception,
    depends on the ignore list only through the common non-key columns it
    names, and on the cast mapping only through its entries for the
    selected columns.  Ignoring a key column, or a column that one of the
    tables lacks, changes nothing. *)
Theorem build_query_frame (set_iter : gset string → list string)
    (db_type : string) (t1_cols_list t2_cols_list : list string)
    (table1_sql_ref table2_sql_ref : string) (pk_cols ignore1 ignore2 : list string)
    (casts1 casts2 : gmap string string) (limit : option Z) :
  walks_sets set_iter →
  (∀ c, c ∈ t1_cols_list → c ∈ t2_cols_list → c ∉ pk_cols →
        (c ∈ ignore1 ↔ c ∈ ignore2)) →
  (∀ c, c ∈ (pk_cols ++ compare_cols_of (common_schema_cols set_iter t1_cols_list t2_cols_list)
                                      pk_cols ignore1)%list →
        casts1 !! c = casts2 !! c) →
  build_query set_iter db_type t1_cols_list t2_cols_list table1_sql_ref table2_sql_ref
              pk_cols ignore1 casts1 limit =
  build_query set_iter db_type t1_cols_list t2_cols_list table1_sql_ref table2_sql_ref
              pk_cols ignore2 casts2 limit.
Proof.
  intros Hwalk Hign Hcasts.
  assert (Hcc : compare_cols_of (common_schema_cols set_iter t1_cols_list t2_cols_list)
                                pk_cols ignore1 =
                compare_cols_of (common_schema_cols set_iter t1_cols_list t2_cols_list)
                                pk_cols ignore2).
  { unfold compare_cols_of. f_equal. apply filter_ext_in.
    intros c [Hc1 Hc2]%(elem_of_common _ _ _ _ Hwalk).
    split; intros [Hpk Hi]; (split; [done|]); intros Hi'; apply Hi; by apply (Hign c). }
  unfold build_query. rewrite <- Hcc.
  rewrite (map_result_ext (λ col, _build_select_expression col "t1" casts1 db_type)
                          (λ col, _build_select_expression col "t1" casts2 db_type))
    by (intros c Hc; by apply build_select_expression_ext, Hcasts).
  rewrite (map_result_ext (λ col, _build_select_expression col "t2" casts1 db_type)
                          (λ col, _build_select_expression col "t2" casts2 db_type))
    by (intros c Hc; by apply build_select_expression_ext, Hcasts).
  done.
Qed.

Lemma build_query_frame_witness :
  build_query elements "duckdb" ["id"; "name"; "value"] ["id"; "name"; "value"]
              "a" "b" ["id"] ["value"] {[ "value" := "frobnicate" ]} None =
  build_query elements "duckdb" ["id"; "name"; "value"] ["id"; "name"; "value"]
              "a" "b" ["id"] ["id"; "value"; "last_login"] ∅ None.
Proof.
  apply build_query_frame.
  - intros X. reflexivity.
  - intros c H1 _ Hpk.
    assert (Hc : c = "name" ∨ c = "value").
    { apply elem_of_cons in H1 as [->|H1]; [destruct Hpk; by left|].
      apply elem_of_cons in H1 as [->|H1]; [by left|].
      apply elem_of_cons in H1 as [->|H1]; [by right|]. by apply elem_of_nil in H1. }
    destruct Hc as [-> | ->]; split; intros Hin;
      apply (bool_decide_unpack _); apply (bool_decide_pack _) in Hin;
      revert Hin; vm_compute; done.
  - intros c Hc.
    assert (Hsel : c = "id" ∨ c = "name").
    { revert Hc. vm_compute. intros Hc.
      apply elem_of_cons in Hc as [->|Hc]; [by left|].
      apply elem_of_cons in Hc as [->|Hc]; [by right|]. by apply elem_of_nil in Hc. }
    destruct Hsel as [-> | ->]; vm_compute; reflexivity.
Defined.

Lemma common_perm_ext iter1 iter2 t1 t2 t1' t2' :
  walks_sets iter1 → walks_sets iter2 →
  (∀ c, c ∈ t1 ∧ c ∈ t2 ↔ c ∈ t1' ∧ c ∈ t2') →
  common_schema_cols iter1 t1 t2 ≡ₚ common_schema_cols iter2 t1' t2'.
Proof.
  intros H1 H2 Hsame. unfold common_schema_cols. rewrite (H1 _), (H2 _).
  assert (Hset : (list_to_set t1 ∩ list_to_set t2 : gset string) =
                 list_to_set t1' ∩ list_to_set t2').
  { apply leibniz_equiv. intros c.
    rewrite !elem_of_intersection, !elem_of_list_to_set. apply Hsame. }
  by rewrite Hset.
Qed.

(** [compare_tables_internal], lines 256-328: the result of the query
    builder depends on the two column lists only through the set of columns
    common to both.  Two runs whose column lists have the same common
    columns give the same result, whatever the order of the columns, their
    repetitions, the table that is listed first, and the order in which
    each run walks its own set of common columns. *)
Theorem build_query_common_columns (iter1 iter2 : gset string → list string)
    (db_type : string) (t1_cols t2_cols t1_cols' t2_cols' : list string)
    (table1_sql_ref table2_sql_ref : string) (pk_cols ignore_cols : list string)
    (scalar_casts : gmap string string) (limit : option Z) :
  walks_sets iter1 → walks_sets iter2 →
  (∀ c, c ∈ t1_cols ∧ c ∈ t2_cols ↔ c ∈ t1_cols' ∧ c ∈ t2_cols') →
  build_query iter1 db_type t1_cols t2_cols table1_sql_ref table2_sql_ref
              pk_cols ignore_cols scalar_casts limit =
  build_query iter2 db_type t1_cols' t2_cols' table1_sql_ref table2_sql_ref
              pk_cols ignore_cols scalar_casts limit.
Proof.
  intros H1 H2 Hsame.
  pose proof (common_perm_ext iter1 iter2 _ _ _ _ H1 H2 Hsame) as Hperm.
  unfold build_query.
  rewrite (validate_pk_cols_ext (common_schema_cols iter1 t1_cols t2_cols)
                                (common_schema_cols iter2 t1_cols' t2_cols')).
  2:{ intros c. by rewrite Hperm. }
  by rewrite (compare_cols_of_perm _ _ _ _ Hperm).
Qed.

Lemma build_query_common_columns_witness :
  build_query elements "duckdb" ["id"; "name"; "value"; "only_a"] ["value"; "id"; "name"]
              "a" "b" ["id"] [] ∅ None =
  build_query (λ X, reverse (elements X)) "duckdb" ["name"; "id"; "value"; "id"]
              ["id"; "name"; "value"; "only_b"] "a" "b" ["id"] [] ∅ None.
Proof.
  apply (build_query_common_columns elements (λ X, reverse (elements X))).
  - intros X. reflexivity.
  - intros X. apply reverse_Permutation.
  - intros c. split; intros [H1 H2].
    all: repeat (apply elem_of_cons in H1 as [->|H1]); try (by apply elem_of_nil in H1).
    all: try (split; apply (bool_decide_unpack _); vm_compute; exact I).
    all: apply (bool_decide_pack _) in H2; vm_compute in H2; done.
Defined.

Lemma validate_pk_cols_inr common pk_cols :
  validate_pk_cols common pk_cols = inr () → pk_cols ≠ [].
Proof. by destruct pk_cols. Qed.

(** [compare_tables_internal], lines 293-304: in a query that is built, the
    filter is the OR of the group of column comparisons (absent when there
    is no compare column) and of the two existence groups; the fallback
    filter 1=0 is never used, the key list being non-empty by then. *)
Theorem where_clause_fallback_unreachable (set_iter : gset string → list string)
    (db_type : string) (t1_cols_list t2_cols_list : list string)
    (table1_sql_ref table2_sql_ref : string) (pk_cols ignore_cols : list string)
    (scalar_casts : gmap string string) (limit : option Z)
    (compare_cols : list string) (query : string) :
  build_query set_iter db_type t1_cols_list t2_cols_list table1_sql_ref table2_sql_ref
              pk_cols ignore_cols scalar_casts limit = inr (compare_cols, query) →
  where_clause db_type pk_cols compare_cols =
    join " OR "
      ((if decide (compare_cols = []) then []
        else ["(" +:+ join " OR " (map (diff_condition db_type) compare_cols) +:+ ")"]) ++
       ["(" +:+ t1_only_conditions db_type pk_cols +:+ ")";
        "(" +:+ t2_only_conditions db_type pk_cols +:+ ")"])%list
  ∧ where_clause db_type pk_cols compare_cols ≠ "1=0"
  ∧ where_clause db_type [] [] = "1=0".
Proof.
  intros Hq. unfold build_query in Hq.
  apply bind_inr in Hq as ([] & Hval%validate_pk_cols_inr & _).
  assert (Hshape : where_clause db_type pk_cols compare_cols =
    join " OR "
      ((if decide (compare_cols = []) then []
        else ["(" +:+ join " OR " (map (diff_condition db_type) compare_cols) +:+ ")"]) ++
       ["(" +:+ t1_only_conditions db_type pk_cols +:+ ")";
        "(" +:+ t2_only_conditions db_type pk_cols +:+ ")"])%list).
  { unfold where_clause. rewrite diff_conditions_list_map.
    destruct pk_cols as [|pk pks]; [done|]. by destruct compare_cols as [|c cs]. }
  split; [done|]. split; [|reflexivity].
  rewrite Hshape. destruct (decide (compare_cols = [])); intros Heq;
    unfold join in Heq; cbn [app String.concat] in Heq;
    rewrite !append_cons in Heq; discriminate Heq.
Qed.

Lemma where_clause_fallback_unreachable_witness :
  where_clause "duckdb" ["id"] ["name"] ≠ "1=0".
Proof.
  destruct (build_query elements "duckdb" ["id"; "name"] ["id"; "name"] "a" "b"
              ["id"] [] ∅ None) as [e|[cc q]] eqn:Hq.
  { vm_compute in Hq. discriminate Hq. }
  assert (Hcc : cc = ["name"]).
  { vm_compute in Hq. by injection Hq as <- _. }
  subst cc.
  apply (where_clause_fallback_unreachable elements "duckdb" ["id"; "name"] ["id"; "name"]
           "a" "b" ["id"] [] ∅ None ["name"] q Hq).
Defined.

(** ** Column lists of the two tables *)

(** [compare_tables_internal], lines 231-251, with [_get_duckdb_table_columns]
    and [_get_bigquery_table_columns]: every failure of this phase is one
    of the following.  For DuckDB, the RuntimeError naming the table whose
    DESCRIBE failed, with the text of the driver.  For BigQuery, the
    ValueError of a malformed table name, or, for a table whose lookup
    failed, the RuntimeError naming its fully qualified name when [NotFound]
    is bound to the exception class, and the TypeError of the [except]
    clause when it is bound to [None].  For any other database type, the
    ValueError naming it. *)
Theorem resolve_tables_errors {V : Type} (db_type : string) (conn : connection V)
    (table1_name table2_name : string) (e : exn) :
  resolve_tables db_type conn table1_name table2_name = inl e →
  (db_type = "duckdb" ∧
     ∃ t f, (t = table1_name ∨ t = table2_name) ∧
            describe conn (duckdb_describe_statement t) = inl f ∧
            e = RuntimeError ("Error describing DuckDB table " ++ t ++ ": " ++ failure_text f))
  ∨ (db_type = "bigquery" ∧
     ((∃ t, (t = table1_name ∨ t = table2_name) ∧
            _parse_bigquery_table_name t (project conn) = inl e)
      ∨ ∃ t ref f,
          (t = table1_name ∨ t = table2_name) ∧
          _parse_bigquery_table_name t (project conn) = inr ref ∧
          get_table conn ref = inl f ∧
          e = if not_found_bound conn then
                match f with
                | NotFound _ => RuntimeError ("BigQuery table not found: " ++ ref)
                | OtherFailure txt =>
                    RuntimeError ("Error describing BigQuery table " ++ ref ++ ": " ++ txt)
                end
              else
                TypeError
                  "catching classes that do not inherit from BaseException is not allowed"))
  ∨ (db_type ≠ "duckdb" ∧ db_type ≠ "bigquery" ∧
     e = ValueError ("Unsupported database type: " ++ db_type)).
Proof.
  assert (Hduck : ∀ t e', _get_duckdb_table_columns conn t = inl e' →
            ∃ f, describe conn (duckdb_describe_statement t) = inl f ∧
                 e' = RuntimeError ("Error describing DuckDB table " ++ t ++ ": " ++
                                    failure_text f)).
  { intros t e'.
    change (_get_duckdb_table_columns conn t) with
      (match describe conn (duckdb_describe_statement t) with
       | inr cols => inr cols
       | inl f => inl (RuntimeError ("Error describing DuckDB table " ++ t ++ ": " ++
                                     failure_text f))
       end : result (list string)).
    destruct (describe conn _) as [f|cols]; [|done]. intros [= <-]. by exists f. }
  assert (Hbq : ∀ r e', _get_bigquery_table_columns conn r = inl e' →
            ∃ f, get_table conn r = inl f ∧
                 e' = if not_found_bound conn then
                        match f with
                        | NotFound _ => RuntimeError ("BigQuery table not found: " ++ r)
                        | OtherFailure txt =>
                            RuntimeError ("Error describing BigQuery table " ++ r ++ ": " ++ txt)
                        end
                      else TypeError except_none_msg).
  { intros r e'. unfold _get_bigquery_table_columns.
    destruct (get_table conn r) as [f|cols]; [|done].
    destruct (not_found_bound conn); [destruct f|]; intros [= <-]; by eexists. }
  unfold resolve_tables.
  destruct (String.eqb_spec db_type "duckdb") as [->|Hnd].
  - intros [H1 | (c1 & _ & [H2 | (c2 & _ & Hret)]%bind_inl_inv)]%bind_inl_inv.
    + left. split; [done|]. destruct (Hduck _ _ H1) as (f & Hf & ->).
      exists table1_name, f. auto.
    + left. split; [done|]. destruct (Hduck _ _ H2) as (f & Hf & ->).
      exists table2_name, f. auto.
    + done.
  - destruct (String.eqb_spec db_type "bigquery") as [->|Hnb].
    + intros [H1 | (r1 & Hr1 & [H2 | (r2 & Hr2 & [H3 | (c1 & _ & [H4 | (c2 & _ & Hret)]%bind_inl_inv)
                ]%bind_inl_inv)]%bind_inl_inv)]%bind_inl_inv.
      * right; left. split; [done|]. left. exists table1_name. auto.
      * right; left. split; [done|]. left. exists table2_name. auto.
      * right; left. split; [done|]. right. destruct (Hbq _ _ H3) as (f & Hf & ->).
        exists table1_name, r1, f. auto.
      * right; left. split; [done|]. right. destruct (Hbq _ _ H4) as (f & Hf & ->).
        exists table2_name, r2, f. auto.
      * done.
    + intros [= <-]. right; right. done.
Qed.

(** A client whose project holds no table, called while [NotFound] is bound
    to [None]. *)
Lemma resolve_tables_errors_witness :
  resolve_tables "bigquery"
    {| project := Some "proj"; describe := λ _, inr [];
       get_table := λ _, inl (NotFound "404 Not found");
       run_query := λ _, inr ([], @nil (list (cell demo_val)));
       not_found_bound := false |} "ds.a" "ds.b"
  = inl (TypeError "catching classes that do not inherit from BaseException is not allowed")
  ∧ ∃ t f,
      (t = "table_A" ∨ t = "table_B") ∧
      describe (duckdb_database demo_duckdb []) (duckdb_describe_statement t) = inl f ∧
      RuntimeError "Error describing DuckDB table table_A: Catalog Error: table does not exist" =
      RuntimeError ("Error describing DuckDB table " ++ t ++ ": " ++ failure_text f).
Proof.
  split; [reflexivity|].
  destruct (resolve_tables_errors "duckdb" (duckdb_database demo_duckdb []) "table_A" "table_B"
              (RuntimeError
                 "Error describing DuckDB table table_A: Catalog Error: table does not exist")
              eq_refl)
    as [[_ Hd] | [[Hb _] | (Hn & _)]].
  - exact Hd.
  - discriminate Hb.
  - by destruct Hn.
Defined.

(** [compare_tables_internal], lines 243-247: for BigQuery both table names
    are parsed before any table is looked up, so a malformed name of either
    table is the error reported, whatever the state of the tables; the
    comparison ends with it. *)
Theorem bigquery_names_checked_first {V : Type} `{DbValue V}
    (set_iter : gset string → list string) (conn : connection V)
    (table1_name table2_name : string) (pk_cols ignore_cols : list string)
    (scalar_casts : gmap string string) (limit : option Z) (e : exn) :
  _parse_bigquery_table_name table1_name (project conn) = inl e
  ∨ (∃ r, _parse_bigquery_table_name table1_name (project conn) = inr r) ∧
    _parse_bigquery_table_name table2_name (project conn) = inl e →
  resolve_tables "bigquery" conn table1_name table2_name = inl e ∧
  compare_tables_internal set_iter "bigquery" conn table1_name table2_name
                          pk_cols ignore_cols scalar_casts limit = inl e.
Proof.
  intros Hbad.
  assert (Hres : resolve_tables "bigquery" conn table1_name table2_name = inl e).
  { unfold resolve_tables. cbn [String.eqb Ascii.eqb Bool.eqb].
    destruct Hbad as [-> | [[r ->] ->]]; reflexivity. }
  split; [done|]. unfold compare_tables_internal. by rewrite Hres.
Qed.

Lemma bigquery_names_checked_first_witness :
  ∃ msg, compare_tables_internal elements "bigquery" demo_conn "ds.t" "orders"
                                 ["id"] [] ∅ None = inl (ValueError msg).
Proof.
  eexists.
  apply (bigquery_names_checked_first elements demo_conn "ds.t" "orders" ["id"] [] ∅ None).
  right. split; [eexists; reflexivity|reflexivity].
Defined.

(** ** Rows of the result *)

Section RowFacts.
Context {V : Type} `{DbValue V}.

(** In a row that is not presence-only the mapping of differences is empty
    exactly when no compare column differs. *)
Lemma value_diff_fold_empty db_type (row : gmap string (cell V)) compare_cols :
  (foldl (value_diff_step db_type row) (∅, false) compare_cols).1 = ∅ ↔
  ∀ col, col ∈ compare_cols → differs db_type row col = false.
Proof.
  split.
  - intros Hempty col Hin. destruct (differs db_type row col) eqn:Hd; [|done].
    pose proof (value_diff_fold_lookup db_type row compare_cols (∅, false) col) as Hl.
    rewrite decide_True in Hl by done. by rewrite Hempty, lookup_empty in Hl.
  - intros Hsame. apply map_eq. intros col.
    rewrite value_diff_fold_lookup, lookup_empty.
    rewrite decide_False; [done|]. intros [Hin Hd]. rewrite (Hsame col Hin) in Hd. done.
Qed.

(** An emitted entry is the key values with the mapping under "diffs". *)
Lemma reconcile_row_entry db_type pk_cols compare_cols (row : gmap string (cell V)) e :
  reconcile_row db_type pk_cols compare_cols row = Some e →
  ∃ d, e = <["diffs" := Diffs d]> (pk_output_values pk_cols row).
Proof.
  unfold reconcile_row. rewrite (right_id_L ∅ (∪)).
  destruct (diff_row _ _ _ _) as [dd st].
  destruct (_ || _ || _); [|done]. intros [= <-]. by eexists.
Qed.

(** [compare_tables_internal], lines 365-387: a row that is neither of
    table 1 only nor of table 2 only gives no entry exactly when none of
    its compare columns differs; rows that are equal on both sides are
    dropped. *)
Theorem unchanged_rows_dropped (db_type : string) (pk_cols compare_cols : list string)
    (row : gmap string (cell V)) :
  is_t1_only pk_cols row = false → is_t2_only pk_cols row = false →
  (reconcile_row db_type pk_cols compare_cols row = None ↔
   ∀ col, col ∈ compare_cols → differs db_type row col = false).
Proof.
  intros Hp1 Hp2. rewrite (reconcile_row_both _ _ _ _ Hp1 Hp2).
  rewrite <- value_diff_fold_empty.
  destruct (dict_truthy _) eqn:Htr.
  - apply dict_truthy_true in Htr. split; [done|]. intros Hempty. by destruct Htr.
  - apply dict_truthy_false in Htr. done.
Qed.

(** [compare_tables_internal], lines 354-381: a row whose key values are
    null on both sides (a row with a NULL key, which the join matches with
    nothing) is never classified as present in one table only: it is
    emitted, with the status value_differences, when some compare column
    differs, and dropped when none does. *)
Theorem null_key_rows_not_presence (db_type : string) (pk_cols compare_cols : list string)
    (row : gmap string (cell V)) :
  Forall (λ pk, py_get row ("t1_" ++ pk) = None ∧ py_get row ("t2_" ++ pk) = None) pk_cols →
  is_t1_only pk_cols row = false ∧ is_t2_only pk_cols row = false ∧
  ((∃ col, col ∈ compare_cols ∧ differs db_type row col = true) →
   ∃ e, reconcile_row db_type pk_cols compare_cols row = Some e ∧
        has_status e "value_differences") ∧
  (∀ e, reconcile_row db_type pk_cols compare_cols row = Some e →
        has_status e "value_differences" ∧
        ∃ col, col ∈ compare_cols ∧ differs db_type row col = true) ∧
  ((∀ col, col ∈ compare_cols → differs db_type row col = false) →
   reconcile_row db_type pk_cols compare_cols row = None).
Proof.
  intros Hnull.
  assert (Hp1 : is_t1_only pk_cols row = false).
  { destruct (is_t1_only pk_cols row) eqn:Hp; [|done].
    apply is_t1_only_true in Hp as [_ (pk & Hpk & Hsome)%Exists_exists].
    rewrite Forall_forall in Hnull. by destruct (Hnull pk Hpk). }
  assert (Hp2 : is_t2_only pk_cols row = false).
  { destruct (is_t2_only pk_cols row) eqn:Hp; [|done].
    apply is_t2_only_true in Hp as [_ (pk & Hpk & Hsome)%Exists_exists].
    rewrite Forall_forall in Hnull. by destruct (Hnull pk Hpk). }
  split; [done|]. split; [done|]. split; [|split].
  - intros (col & Hin & Hd). rewrite (reconcile_row_both _ _ _ _ Hp1 Hp2).
    destruct (dict_truthy _) eqn:Htr.
    + eexists. split; [reflexivity|]. eexists. split; by rewrite lookup_insert_eq.
    + apply dict_truthy_false in Htr. rewrite value_diff_fold_empty in Htr.
      rewrite (Htr col Hin) in Hd. discriminate Hd.
  - intros e. rewrite (reconcile_row_both _ _ _ _ Hp1 Hp2).
    destruct (dict_truthy _) eqn:Htr; [|done]. intros [= <-]. split.
    + eexists. split; by rewrite lookup_insert_eq.
    + apply dict_truthy_true in Htr.
      destruct (existsb (differs db_type row) compare_cols) eqn:Hex.
      * apply existsb_exists in Hex as (col & Hin & Hd). exists col.
        split; [by apply list_elem_of_In|done].
      * destruct Htr. apply value_diff_fold_empty. intros col Hin.
        destruct (differs db_type row col) eqn:Hd; [|done].
        assert (existsb (differs db_type row) compare_cols = true); [|congruence].
        apply existsb_exists. exists col. split; [by apply list_elem_of_In|done].
  - intros Hsame. rewrite (reconcile_row_both _ _ _ _ Hp1 Hp2).
    apply value_diff_fold_empty in Hsame. rewrite Hsame. reflexivity.
Qed.

(** [compare_tables_internal], lines 348-349 and 384: an emitted entry
    holds, under every key column other than one named "diffs", the value
    the row has under that column name; it holds the mapping of differences
    under "diffs" (also when "diffs" is a key column, whose value is then
    lost) and has no other key. *)
Theorem emitted_key_values (db_type : string) (pk_cols compare_cols : list string)
    (row : gmap string (cell V)) (e : gmap string (entry_val V)) :
  reconcile_row db_type pk_cols compare_cols row = Some e →
  (∀ pk, pk ∈ pk_cols → pk ≠ "diffs" → e !! pk = Some (Field (py_get row pk))) ∧
  (∃ d, e !! "diffs" = Some (Diffs d)) ∧
  (∀ k, k ∉ pk_cols → k ≠ "diffs" → e !! k = None).
Proof.
  intros [d ->]%reconcile_row_entry. split; [|split].
  - intros pk Hin Hne. rewrite lookup_insert_ne by done.
    rewrite pk_output_values_lookup. by rewrite decide_True.
  - exists d. by rewrite lookup_insert_eq.
  - intros k Hout Hne. rewrite lookup_insert_ne by done.
    rewrite pk_output_values_lookup. by rewrite decide_False.
Qed.

Lemma foldl_insert_pairs_last (l : list (string * cell V)) (m : gmap string (cell V))
    (i : nat) (k : string) (v : cell V) :
  l !! i = Some (k, v) →
  (∀ j v', i < j → l !! j ≠ Some (k, v')) →
  foldl (λ d kv, <[kv.1 := kv.2]> d) m l !! k = Some v.
Proof.
  revert i. induction l as [|[k' v'] l IH] using rev_ind; intros i Hi Hlast; [done|].
  rewrite foldl_snoc. cbn [fst snd].
  destruct (decide (i = length l)) as [->|Hne].
  - rewrite lookup_app_r, Nat.sub_diag in Hi by done. injection Hi as -> ->.
    by rewrite lookup_insert_eq.
  - assert (Hlt : i < length l).
    { apply lookup_lt_Some in Hi. rewrite length_app in Hi. cbn in Hi. lia. }
    rewrite lookup_app_l in Hi by done.
    assert (Hk : k' ≠ k).
    { intros ->. apply (Hlast (length l) v'); [done|].
      by rewrite lookup_app_r, Nat.sub_diag. }
    rewrite lookup_insert_ne by done. apply (IH i); [done|].
    intros j v'' Hj Hl. apply (Hlast j v''); [done|].
    rewrite lookup_app_l; [done|]. by apply lookup_lt_Some in Hl.
Qed.

Lemma foldl_insert_pairs_none (l : list (string * cell V)) (m : gmap string (cell V))
    (k : string) :
  (∀ i v, l !! i ≠ Some (k, v)) →
  foldl (λ d kv, <[kv.1 := kv.2]> d) m l !! k = m !! k.
Proof.
  induction l as [|[k' v'] l IH] using rev_ind; intros Hno; [done|].
  rewrite foldl_snoc. cbn [fst snd].
  assert (Hk : k' ≠ k).
  { intros ->. apply (Hno (length l) v'). by rewrite lookup_app_r, Nat.sub_diag. }
  rewrite lookup_insert_ne by done. apply IH.
  intros i v Hl. apply (Hno i v). rewrite lookup_app_l; [done|]. by apply lookup_lt_Some in Hl.
Qed.

(** [compare_tables_internal], line 346, with [row_dict.get]: a column name
    reads the cell at its position, the last position when the name occurs
    more than once; a name without a cell (not among the result columns,
    or beyond the end of a short row) reads as None, without an error. *)
Theorem row_dict_lookup (names : list string) (row_tuple : list (cell V)) :
  (∀ i k v, names !! i = Some k → row_tuple !! i = Some v →
            (∀ j, i < j → j < length row_tuple → names !! j ≠ Some k) →
            py_get (row_dict_of names row_tuple) k = v) ∧
  (∀ k, (∀ i, i < length row_tuple → names !! i ≠ Some k) →
        py_get (row_dict_of names row_tuple) k = None).
Proof.
  split.
  - intros i k v Hn Hr Hlast. unfold py_get, row_dict_of.
    rewrite (foldl_insert_pairs_last _ _ i k v); [done| |].
    + apply lookup_zip_with_Some. by exists k, v.
    + intros j v' Hj (k'' & v'' & [= <- <-] & Hnj & Hrj)%lookup_zip_with_Some.
      apply (Hlast j); [done| |done]. by apply lookup_lt_Some in Hrj.
  - intros k Hno. unfold py_get, row_dict_of.
    rewrite foldl_insert_pairs_none; [by rewrite lookup_empty|].
    intros i v (k'' & v'' & [= <- <-] & Hni & Hri)%lookup_zip_with_Some.
    apply (Hno i); [|done]. by apply lookup_lt_Some in Hri.
Qed.

End RowFacts.

(** ** DuckDB table names *)

Lemma split_first_append sep s :
  contains_char sep s = true →
  s = (split_first sep s).1 ++ String sep (split_first sep s).2.
Proof.
  induction s as [|c s IH]; [done|]. cbn [contains_char split_first].
  destruct (Ascii.eqb_spec c sep) as [->|Hne]; [done|]. cbn [orb].
  intros Hin. destruct (split_first sep s) as [a b]. cbn [fst snd] in *.
  rewrite append_cons. f_equal. by apply IH.
Qed.

Lemma str_split_split_first sep s :
  contains_char sep s = true →
  str_split sep s = (split_first sep s).1 :: str_split sep (split_first sep s).2.
Proof.
  induction s as [|c s IH]; [done|]. cbn [contains_char split_first str_split].
  destruct (Ascii.eqb c sep); [done|]. cbn [orb].
  intros Hin. rewrite (IH Hin). by destruct (split_first sep s) as [a b].
Qed.

Lemma length_join_quoted (parts : list string) :
  parts ≠ [] →
  String.length (join "." (map (λ part, dquote ++ part ++ dquote) parts)) =
  String.length (join "." parts) + 2 * length parts.
Proof.
  unfold join. induction parts as [|p ps IH]; [done|]. intros _.
  destruct ps as [|p' ps].
  - cbn [map String.concat length]. rewrite !length_append. cbn. lia.
  - assert (Hne : p' :: ps ≠ []) by done. specialize (IH Hne).
    cbn [map String.concat length] in *. rewrite !length_append in *. cbn in *. lia.
Qed.

(** [_get_duckdb_table_columns] and the local [quote_duckdb_name]: for a
    table name with at most one dot the table that is described is the
    table the query reads from; for a name with two dots or more the two
    differ, the DESCRIBE statement quoting everything after the first dot
    as one identifier and the query quoting each part. *)
Theorem duckdb_describe_matches_from (table_name : string) :
  ((length (str_split "." table_name) ≤ 2)%nat →
   duckdb_describe_statement table_name = "DESCRIBE " ++ quote_duckdb_name table_name) ∧
  ((3 ≤ length (str_split "." table_name))%nat →
   duckdb_describe_statement table_name ≠ "DESCRIBE " ++ quote_duckdb_name table_name) ∧
  (∀ (V : Type) (conn : connection V),
     _get_duckdb_table_columns conn table_name =
     match describe conn (duckdb_describe_statement table_name) with
     | inr cols => inr cols
     | inl f => inl (RuntimeError ("Error describing DuckDB table " ++ table_name ++ ": " ++
                                   failure_text f))
     end).
Proof.
  split; [|split].
  - intros Hlen. unfold duckdb_describe_statement, quote_duckdb_name.
    destruct (contains_char "." table_name) eqn:Hdot; [|done].
    rewrite (str_split_split_first _ _ Hdot) in Hlen |- *.
    destruct (split_first "." table_name) as [schema name]. cbn [fst snd] in *.
    pose proof (str_split_nonempty "." name) as Hne.
    pose proof (str_split_join "." name) as Hjoin.
    destruct (str_split "." name) as [|n [|? ?]]; [done| |cbn in Hlen; lia].
    cbn in Hjoin. subst n. unfold join. cbn [map String.concat].
    f_equal. by rewrite !append_assoc.
  - intros Hlen Heq. apply (f_equal String.length) in Heq.
    unfold duckdb_describe_statement, quote_duckdb_name in Heq.
    destruct (contains_char "." table_name) eqn:Hdot.
    + pose proof (split_first_append _ _ Hdot) as Hname.
      pose proof (str_split_join "." table_name) as Hjoin.
      pose proof (str_split_nonempty "." table_name) as Hne.
      apply (f_equal String.length) in Hname, Hjoin.
      destruct (split_first "." table_name) as [schema name]. cbn [fst snd] in *.
      rewrite !length_append in Heq. rewrite length_join_quoted in Heq by done.
      rewrite length_append in Hname. cbn in Hname, Heq.
      change (String "." EmptyString) with "." in Hjoin. lia.
    + apply str_split_length_no_sep in Hdot. lia.
  - intros V conn. reflexivity.
Qed.

Lemma duckdb_describe_matches_from_witness :
  duckdb_describe_statement "main.t" = "DESCRIBE " ++ quote_duckdb_name "main.t" ∧
  duckdb_describe_statement "db.main.t" ≠ "DESCRIBE " ++ quote_duckdb_name "db.main.t".
Proof.
  split.
  - apply (proj1 (duckdb_describe_matches_from "main.t")). vm_compute. lia.
  - apply (proj1 (proj2 (duckdb_describe_matches_from "db.main.t"))). vm_compute. lia.
Defined.

(** ** Command-line values *)

Lemma lstrip_head (s : string) :
  lstrip s = EmptyString ∨ ∃ c r, lstrip s = String c r ∧ is_space c = false.
Proof.
  induction s as [|c s IH]; [by left|]. cbn [lstrip].
  destruct (is_space c) eqn:Hc; [done|]. right. by exists c, s.
Qed.

Lemma rstrip_cons (c : ascii) (r : string) :
  is_space c = false → rstrip (String c r) = String c (rstrip r).
Proof. intros Hc. cbn [rstrip]. rewrite Hc. by destruct (rstrip r). Qed.

Lemma rstrip_idemp (s : string) : rstrip (rstrip s) = rstrip s.
Proof.
  induction s as [|c s IH]; [done|]. cbn [rstrip].
  destruct (rstrip s) as [|c2 r2] eqn:Hr.
  - destruct (is_space c) eqn:Hc; [done|]. cbn [rstrip]. by rewrite Hc.
  - cbn [rstrip]. cbn [rstrip] in IH. by rewrite IH.
Qed.

(** Stripping a stripped text changes nothing. *)
Lemma strip_idemp (s : string) : strip (strip s) = strip s.
Proof.
  unfold strip. destruct (lstrip_head s) as [-> | (c & r & -> & Hc)]; [done|].
  rewrite (rstrip_cons c r Hc). cbn [lstrip]. rewrite Hc.
  rewrite <- (rstrip_cons c r Hc). apply rstrip_idemp.
Qed.

(** [parse_arguments], lines 57 and 69: every column name obtained from
    [--pk-cols] is the stripped form of a comma-separated part, is not
    empty and has no white space around it; the list is empty exactly when
    every part is blank; [--ignore-cols] is read in the same way. *)
Theorem parse_pk_cols_entries (s : string) :
  (∀ col, col ∈ parse_pk_cols s ↔
          col ≠ EmptyString ∧ ∃ part, part ∈ str_split "," s ∧ col = strip part) ∧
  (∀ col, col ∈ parse_pk_cols s → strip col = col) ∧
  (parse_pk_cols s = [] ↔ ∀ part, part ∈ str_split "," s → strip part = EmptyString) ∧
  parse_ignore_cols s = parse_pk_cols s.
Proof.
  assert (Hmem : ∀ col, col ∈ parse_pk_cols s ↔
            col ≠ EmptyString ∧ ∃ part, part ∈ str_split "," s ∧ col = strip part).
  { intros col. unfold parse_pk_cols. rewrite list_elem_of_fmap. split.
    - intros (part & -> & [Hne Hin]%list_elem_of_filter). split; [done|]. by exists part.
    - intros (Hne & part & Hin & ->). exists part. split; [done|].
      by apply list_elem_of_filter. }
  split; [done|]. split; [|split].
  - intros col (_ & part & _ & ->)%Hmem. apply strip_idemp.
  - split.
    + intros Hnil part Hin. destruct (decide (strip part = EmptyString)) as [|Hne]; [done|].
      assert (Hmem' : strip part ∈ parse_pk_cols s) by (apply Hmem; split; [done|by exists part]).
      rewrite Hnil in Hmem'. by apply elem_of_nil in Hmem'.
    + intros Hblank. destruct (parse_pk_cols s) as [|col cols] eqn:Hp; [done|].
      assert (Hcol : col ∈ col :: cols) by (by left).
      apply Hmem in Hcol as (Hne & part & Hin & ->). by destruct Hne; apply Hblank.
  - unfold parse_ignore_cols, parse_pk_cols.
    destruct (String.eqb_spec s EmptyString) as [->|Hne]; [|done].
    vm_compute. reflexivity.
Qed.

Lemma parse_pk_cols_entries_witness :
  parse_pk_cols " user_id , ,event_id" = ["user_id"; "event_id"] ∧
  strip "user_id" = "user_id".
Proof.
  split; [vm_compute; reflexivity|].
  apply (proj1 (proj2 (parse_pk_cols_entries " user_id , ,event_id"))).
  apply (bool_decide_unpack _). vm_compute. exact I.
Defined.

Lemma casts_of_items_inl (items : list string) (acc : gmap string string) :
  (∃ e, casts_of_items items acc = inl e) ↔
  ∃ item, item ∈ items ∧ (3 ≤ length (str_split "=" item))%nat.
Proof.
  revert acc. induction items as [|item rest IH]; intros acc; cbn [casts_of_items].
  { split; [by intros [e ?]|]. by intros (item & ?%elem_of_nil & _). }
  assert (Hrest : ∀ acc',
    (∃ e, casts_of_items rest acc' = inl e) →
    ∃ item0, item0 ∈ item :: rest ∧ (3 ≤ length (str_split "=" item0))%nat).
  { intros acc' (it & Hin & Hlen)%IH. exists it. split; [by right|done]. }
  destruct (contains_char "=" item) eqn:Heq.
  - assert (Hge : length (str_split "=" item) ≠ 1).
    { intros H1. apply str_split_length_no_sep in H1. congruence. }
    pose proof (str_split_nonempty "=" item) as Hne.
    destruct (str_split "=" item) as [|k [|v [|x xs]]] eqn:Hs; [done|done| |].
    + split; [apply Hrest|].
      intros (it & [->|Hin]%elem_of_cons & Hlen).
      * rewrite Hs in Hlen. cbn in Hlen. lia.
      * apply IH. by exists it.
    + split; [|by eexists]. intros _. exists item. split; [by left|].
      rewrite Hs. cbn. lia.
  - apply str_split_length_no_sep in Heq.
    split; [apply Hrest|].
    intros (it & [->|Hin]%elem_of_cons & Hlen); [lia|]. apply IH. by exists it.
Qed.

Lemma casts_of_items_entries (items : list string) (acc m : gmap string string) :
  casts_of_items items acc = inr m →
  ∀ col ty, m !! col = Some ty →
    acc !! col = Some ty ∨
    ∃ item k v, item ∈ items ∧ str_split "=" item = [k; v] ∧ col = strip k ∧ ty = strip v.
Proof.
  revert acc. induction items as [|item rest IH]; intros acc; cbn [casts_of_items].
  { intros [= <-] col ty Hl. by left. }
  assert (Hrest : ∀ col ty,
    (∃ it k v, it ∈ rest ∧ str_split "=" it = [k; v] ∧ col = strip k ∧ ty = strip v) →
    ∃ it k v, it ∈ item :: rest ∧ str_split "=" it = [k; v] ∧ col = strip k ∧ ty = strip v).
  { intros col ty (it & k & v & Hin & Hrest). exists it, k, v. split; [by right|done]. }
  destruct (contains_char "=" item).
  - destruct (str_split "=" item) as [|k [|v [|x xs]]] eqn:Hs; try done.
    intros Hm col ty Hl. destruct (IH _ Hm col ty Hl) as [Hacc | Hit].
    + destruct (decide (strip k = col)) as [<-|Hne].
      * rewrite lookup_insert_eq in Hacc. injection Hacc as <-.
        right. exists item, k, v. split; [by left|done].
      * rewrite lookup_insert_ne in Hacc by done. by left.
    + right. by apply Hrest.
  - intros Hm col ty Hl. destruct (IH _ Hm col ty Hl) as [Hacc | Hit]; [by left|].
    right. by apply Hrest.
Qed.

(** [parse_arguments], line 75, for a value written in ASCII: the value of
    [--scalar-casts] is rejected exactly when one of its comma-separated
    items holds more than one equals sign; the failure is a ValueError.
    Otherwise every entry of the mapping comes from an item with exactly
    one equals sign, key and type stripped; an item without an equals sign
    is passed over. *)
Theorem parse_scalar_casts_items (s : string) :
  isascii s = true →
  ((∃ e, parse_scalar_casts s = inl e) ↔
   ∃ item, item ∈ str_split "," s ∧ (3 ≤ length (str_split "=" item))%nat) ∧
  (∀ e, parse_scalar_casts s = inl e → ∃ msg, e = ValueError msg) ∧
  (∀ m col ty, parse_scalar_casts s = inr m → m !! col = Some ty →
     ∃ item k v, item ∈ str_split "," s ∧ str_split "=" item = [k; v] ∧
                 col = strip k ∧ ty = strip v).
Proof.
  intros _. unfold parse_scalar_casts.
  destruct (String.eqb_spec s EmptyString) as [->|Hne]; cbn [negb].
  - split; [|split].
    + split; [by intros [e ?]|].
      intros (item & Hin & Hlen). revert Hin Hlen. vm_compute.
      intros [->|Hin]%elem_of_cons; [cbn; lia|by apply elem_of_nil in Hin].
    + done.
    + intros m col ty [= <-]. by rewrite lookup_empty.
  - split; [apply casts_of_items_inl|]. split.
    + assert (Hgen : ∀ items acc e, casts_of_items items acc = inl e → ∃ msg, e = ValueError msg).
      { induction items as [|item rest IH]; intros acc e; cbn [casts_of_items]; [done|].
        destruct (contains_char "=" item); [|apply IH].
        destruct (str_split "=" item) as [|k [|v [|x xs]]];
          try (intros [= <-]; by eexists). apply IH. }
      apply Hgen.
    + intros m col ty Hm Hl.
      destruct (casts_of_items_entries _ _ _ Hm col ty Hl) as [Hacc|Hit]; [|done].
      by rewrite lookup_empty in Hacc.
Qed.

Lemma parse_scalar_casts_items_witness :
  (∃ e, parse_scalar_casts "amount=NUMERIC,note,day=a=b" = inl e) ∧
  ∃ m, parse_scalar_casts " amount = numeric ,note" = inr m ∧
       m !! "amount" = Some "numeric" ∧ m !! "note" = None ∧
       ∃ item k v, item ∈ str_split "," " amount = numeric ,note" ∧
                   str_split "=" item = [k; v] ∧
                   "amount" = strip k ∧ "numeric" = strip v.
Proof.
  split.
  - apply (proj1 (parse_scalar_casts_items "amount=NUMERIC,note,day=a=b" eq_refl)).
    exists "day=a=b". split; [|vm_compute; lia].
    apply (bool_decide_unpack _). vm_compute. exact I.
  - eexists. split; [vm_compute; reflexivity|]. split; [vm_compute; reflexivity|].
    split; [vm_compute; reflexivity|].
    apply (proj2 (proj2 (parse_scalar_casts_items " amount = numeric ,note" eq_refl))
             (<[ "amount" := "numeric" ]> ∅)); vm_compute; reflexivity.
Defined.

(** ** Witnesses on concrete rows *)

Lemma unchanged_rows_dropped_witness :
  reconcile_row "duckdb" ["id"] ["name"; "value"] same_row = None.
Proof.
  apply (unchanged_rows_dropped "duckdb" ["id"] ["name"; "value"] same_row);
    [vm_compute; reflexivity | vm_compute; reflexivity |].
  intros col Hcol.
  apply elem_of_cons in Hcol as [->|Hcol]; [vm_compute; reflexivity|].
  apply elem_of_cons in Hcol as [->|Hcol]; [vm_compute; reflexivity|].
  by apply elem_of_nil in Hcol.
Defined.

Lemma null_key_rows_not_presence_witness :
  is_t1_only ["id"] null_key_row = false ∧ is_t2_only ["id"] null_key_row = false ∧
  ∃ e, reconcile_row "duckdb" ["id"] ["name"; "value"] null_key_row = Some e ∧
       has_status e "value_differences".
Proof.
  destruct (null_key_rows_not_presence "duckdb" ["id"] ["name"; "value"] null_key_row)
    as (Hp1 & Hp2 & Hemit & _).
  { repeat constructor. }
  split; [exact Hp1|]. split; [exact Hp2|].
  apply Hemit. exists "name". split; [by left|]. vm_compute. reflexivity.
Defined.

Lemma emitted_key_values_witness :
  ∃ e, reconcile_row "duckdb" ["id"] ["name"; "value"] null_row = Some e ∧
       e !! "id" = Some (Field (Some (DInt 7))).
Proof.
  destruct (reconcile_row "duckdb" ["id"] ["name"; "value"] null_row) as [e|] eqn:He.
  - exists e. split; [reflexivity|].
    apply (proj1 (emitted_key_values "duckdb" ["id"] ["name"; "value"] null_row e He) "id").
    + by left.
    + discriminate.
  - vm_compute in He. discriminate He.
Defined.

Lemma row_dict_lookup_witness :
  py_get (row_dict_of ["id"; "x"; "x"] [Some (DInt 1); Some (DInt 2); Some (DInt 3)]) "x"
    = Some (DInt 3) ∧
  py_get (row_dict_of ["id"; "x"] [Some (DInt 1)]) "x" = None.
Proof.
  split.
  - apply (proj1 (row_dict_lookup ["id"; "x"; "x"]
                    [Some (DInt 1); Some (DInt 2); Some (DInt 3)]) 2%nat);
      [reflexivity | reflexivity |].
    intros j Hj Hlen. cbn in Hlen. lia.
  - apply (proj2 (row_dict_lookup ["id"; "x"] [Some (DInt 1)])).
    intros i Hi. cbn in Hi. destruct i as [|i]; [discriminate|lia].
Defined.

(** ** [run_comparison] *)

Section RunComparison.
Context {V : Type} `{DbValue V}.

Lemma close_not_in_executes (scripts : list string) :
  DuckdbClose ∉ map DuckdbExecute scripts.
Proof. by intros (s & ? & _)%list_elem_of_fmap. Qed.

(** [run_comparison]: no driver is called when the driver named by
    [db_type] is not installed or [db_type] names no driver.  The DuckDB
    connection is closed exactly when the comparison itself was started,
    that is when the connection was opened and the set-up scripts ran
    without an exception, and closing is then the last call, made once,
    whether the comparison returned or raised; a BigQuery client is never
    closed. *)
Theorem run_comparison_driver_calls (set_iter : gset string → list string)
    (env : drivers V) (db_type table1 table2 : string) (pk_cols : list string)
    (limit : option Z) (ignore_cols : list string) (scalar_casts : gmap string string) :
  let calls := (run_comparison set_iter env db_type table1 table2 pk_cols limit
                               ignore_cols scalar_casts).1 in
  (calls = [] ↔
     db_type = "duckdb" ∧ duckdb env = None
     ∨ db_type = "bigquery" ∧ bigquery env = None
     ∨ db_type ≠ "duckdb" ∧ db_type ≠ "bigquery") ∧
  (DuckdbClose ∈ calls ↔
     db_type = "duckdb" ∧
     ∃ m executed, duckdb env = Some m ∧ duckdb_connect m = None ∧
       execute_scripts m []
         (if String.eqb table1 "demo_table_A" && String.eqb table2 "demo_table_B"
          then [demo_table_A_script; demo_table_B_script] else []) = (executed, None)) ∧
  (DuckdbClose ∈ calls →
     ∃ before, calls = (before ++ [DuckdbClose])%list ∧ DuckdbClose ∉ before).
Proof.
  cbn zeta. unfold run_comparison.
  destruct (String.eqb_spec db_type "duckdb") as [->|Hnd].
  - destruct (duckdb env) as [m|].
    + destruct (duckdb_connect m) as [e|] eqn:Hconn.
      * cbn [fst]. split; [|split].
        -- split; [done|]. intros [[_ ?]|[[? _]|[? _]]]; done.
        -- split.
           ++ intros [?|?%elem_of_nil]%elem_of_cons; done.
           ++ intros (_ & m' & ex & [= <-] & Hc & _). congruence.
        -- intros [?|?%elem_of_nil]%elem_of_cons; done.
      * destruct (execute_scripts m [] _) as [executed [e|]] eqn:Hex; cbn [fst].
        -- split; [|split].
           ++ split; [done|]. intros [[_ ?]|[[? _]|[? _]]]; done.
           ++ split.
              ** intros [?|Hin]%elem_of_cons; [done|]. by apply close_not_in_executes in Hin.
              ** intros (_ & m' & ex & [= <-] & _ & Hex'). congruence.
           ++ intros [?|Hin]%elem_of_cons; [done|]. by apply close_not_in_executes in Hin.
        -- split; [|split].
           ++ split; [done|]. intros [[_ ?]|[[? _]|[? _]]]; done.
           ++ split; [|intros _; set_solver].
              intros _. split; [done|]. by exists m, executed.
           ++ intros _. exists (DuckdbConnect :: map DuckdbExecute executed). split; [done|].
              intros [?|Hin]%elem_of_cons; [done|]. by apply close_not_in_executes in Hin.
    + cbn [fst]. split; [|split].
      * split; [|done]. intros _. by left.
      * split; [by intros ?%elem_of_nil|]. by intros (_ & m' & ex & ? & _).
      * by intros ?%elem_of_nil.
  - destruct (String.eqb_spec db_type "bigquery") as [->|Hnb].
    + destruct (bigquery env) as [[e|client]|]; cbn [fst].
      * split; [|split].
        -- split; [done|]. intros [[? _]|[[_ ?]|[_ ?]]]; done.
        -- split; [|by intros [? _]]. intros [?|?%elem_of_nil]%elem_of_cons; done.
        -- intros [?|?%elem_of_nil]%elem_of_cons; done.
      * split; [|split].
        -- split; [done|]. intros [[? _]|[[_ ?]|[_ ?]]]; done.
        -- split; [|by intros [? _]]. intros [?|?%elem_of_nil]%elem_of_cons; done.
        -- intros [?|?%elem_of_nil]%elem_of_cons; done.
      * split; [|split].
        -- split; [|done]. intros _. right; by left.
        -- split; [by intros ?%elem_of_nil|by intros [? _]].
        -- by intros ?%elem_of_nil.
    + cbn [fst]. split; [|split].
      * split; [|done]. intros _. right; right. done.
      * split; [by intros ?%elem_of_nil|by intros [? _]].
      * by intros ?%elem_of_nil.
Qed.

(** [run_comparison] with DuckDB always works on a new in-memory database,
    in which only the two demo tables are ever created.  So for any other
    pair of table names, the database having no table to describe, the
    outcome is the RuntimeError for the first table, after which the
    connection is closed; no script is executed. *)
Theorem run_comparison_duckdb_only_demo (set_iter : gset string → list string)
    (env : drivers V) (m : duckdb_module V) (table1 table2 : string) (pk_cols : list string)
    (limit : option Z) (ignore_cols : list string) (scalar_casts : gmap string string)
    (f : backend_failure) :
  duckdb env = Some m → duckdb_connect m = None →
  ¬ (table1 = "demo_table_A" ∧ table2 = "demo_table_B") →
  describe (duckdb_database m []) (duckdb_describe_statement table1) = inl f →
  run_comparison set_iter env "duckdb" table1 table2 pk_cols limit ignore_cols scalar_casts =
    ([DuckdbConnect; DuckdbClose],
     inl (Raised (RuntimeError ("Error describing DuckDB table " ++ table1 ++ ": " ++
                                failure_text f)))).
Proof.
  intros Henv Hconn Hdemo Hdesc. unfold run_comparison. cbn [String.eqb Ascii.eqb Bool.eqb].
  rewrite Henv, Hconn.
  assert (Hsetup : String.eqb table1 "demo_table_A" && String.eqb table2 "demo_table_B"
                   = false).
  { destruct (String.eqb_spec table1 "demo_table_A") as [->|?]; [|done].
    destruct (String.eqb_spec table2 "demo_table_B") as [->|?]; [|done]. by destruct Hdemo. }
  rewrite Hsetup. cbn [execute_scripts map app].
  assert (Hcols : _get_duckdb_table_columns (duckdb_database m []) table1 =
            inl (RuntimeError ("Error describing DuckDB table " ++ table1 ++ ": " ++
                               failure_text f))).
  { change (match describe (duckdb_database m []) (duckdb_describe_statement table1) with
            | inr cols => inr cols
            | inl f0 => inl (RuntimeError ("Error describing DuckDB table " ++ table1 ++ ": " ++
                                           failure_text f0))
            end = inl (RuntimeError ("Error describing DuckDB table " ++ table1 ++ ": " ++
                                     failure_text f))).
    by rewrite Hdesc. }
  unfold compare_tables_internal, resolve_tables. cbn [String.eqb Ascii.eqb Bool.eqb].
  by rewrite Hcols.
Qed.

End RunComparison.

Lemma run_comparison_driver_calls_witness :
  ∃ before,
    (run_comparison elements demo_drivers "duckdb" "demo_table_A" "demo_table_B"
                    ["id"] None [] ∅).1 = (before ++ [DuckdbClose])%list ∧
    DuckdbClose ∉ before.
Proof.
  apply (run_comparison_driver_calls elements demo_drivers "duckdb" "demo_table_A"
           "demo_table_B" ["id"] None [] ∅).
  apply (run_comparison_driver_calls elements demo_drivers "duckdb" "demo_table_A"
           "demo_table_B" ["id"] None [] ∅).
  split; [reflexivity|]. eexists _, _. split; [reflexivity|]. split; reflexivity.
Defined.

Lemma run_comparison_duckdb_only_demo_witness :
  run_comparison elements demo_drivers "duckdb" "table_A" "table_B" ["id"] None [] ∅ =
    ([DuckdbConnect; DuckdbClose],
     inl (Raised (RuntimeError
       "Error describing DuckDB table table_A: Catalog Error: table does not exist"))).
Proof.
  apply (run_comparison_duckdb_only_demo elements demo_drivers demo_duckdb "table_A" "table_B"
           ["id"] None [] ∅ (OtherFailure "Catalog Error: table does not exist")).
  - reflexivity.
  - reflexivity.
  - intros [Ha _]. discriminate Ha.
  - reflexivity.
Defined.

(** The demo pair on the demo database: both scripts run, in order, the
    comparison returns one entry for each of the ids 2, 3, 4 and 5 and the
    connection is closed. *)
Example run_comparison_demo :
  (run_comparison elements demo_drivers "duckdb" "demo_table_A" "demo_table_B"
                  ["id"] None [] ∅).1 =
    [DuckdbConnect; DuckdbExecute demo_table_A_script;
     DuckdbExecute demo_table_B_script; DuckdbClose] ∧
  ∃ diffs,
    (run_comparison elements demo_drivers "duckdb" "demo_table_A" "demo_table_B"
                    ["id"] None [] ∅).2 = inr diffs ∧
    (λ e, (e !! "id",
           match e !! "diffs" with
           | Some (Diffs d) => (d !! "_status", dom d)
           | _ => (None, ∅)
           end)) <$> diffs =
    [ (Some (Field (Some (DInt 2))),
       (Some (Status "value_differences"), {[ "_status"; "last_seen"; "value" ]}));
      (Some (Field (Some (DInt 3))),
       (Some (Status "present_in_table1_only"),
        {[ "_status"; "last_seen"; "name"; "value" ]}));
      (Some (Field (Some (DInt 4))),
       (Some (Status "present_in_table2_only"),
        {[ "_status"; "last_seen"; "name"; "value" ]}));
      (Some (Field (Some (DInt 5))),
       (Some (Status "value_differences"),
        {[ "_status"; "last_seen"; "name"; "value" ]})) ].
Proof. split; [vm_compute; reflexivity|]. eexists. split; vm_compute; reflexivity. Qed.

(** ** More on the cast resolver and the reconciler *)

(** [_get_cast_expression_for_sql_expr], for a request written in ASCII:
    the type written into the CAST is the uppercased request whenever that
    is a name of [valid_types]; the only other case is TEXT, written as
    STRING.  No other entry of the synonym table is ever applied. *)
Theorem cast_resolver_output (x cast_type s : string) :
  isascii cast_type = true →
  _get_cast_expression_for_sql_expr x cast_type = inr s →
  upper cast_type ∈ valid_types ∧ s = "CAST(" ++ x ++ " AS " ++ upper cast_type ++ ")"
  ∨ upper cast_type = "TEXT" ∧ s = "CAST(" ++ x ++ " AS STRING)".
Proof.
  intros _. unfold _get_cast_expression_for_sql_expr.
  destruct (decide (upper cast_type ∈ valid_types)) as [Hup|Hup].
  - rewrite (proj2 (py_in_true _ _) Hup). cbn [negb]. intros [= <-]. by left.
  - rewrite (proj2 (py_in_false _ _) Hup). cbn [negb].
    destruct (mapping !! upper cast_type) as [ty|] eqn:Hmap; cbn [default].
    + apply elem_of_list_to_map_2 in Hmap.
      repeat (apply elem_of_cons in Hmap as [[= Hu ->]|Hmap]);
        try (by apply elem_of_nil in Hmap);
        try (destruct Hup; rewrite Hu; apply (bool_decide_unpack _); vm_compute; exact I).
      rewrite Hu. intros Hs. vm_compute in Hs. injection Hs as <-. by right.
    + rewrite (proj2 (py_in_false _ _) Hup). cbn [negb]. done.
Qed.

Lemma cast_resolver_output_witness :
  upper "Text" ∈ valid_types ∧ "CAST(x AS STRING)" = "CAST(" ++ "x" ++ " AS " ++ upper "Text" ++ ")"
  ∨ upper "Text" = "TEXT" ∧ "CAST(x AS STRING)" = "CAST(" ++ "x" ++ " AS STRING)".
Proof.
  apply (cast_resolver_output "x" "Text" "CAST(x AS STRING)"); vm_compute; reflexivity.
Defined.

Section MoreRowFacts.
Context {V : Type} `{DbValue V}.

(** [compare_tables_internal], lines 365-386: in an entry for a row that is
    neither of table 1 only nor of table 2 only, the mapping holds, apart
    from "_status", exactly the compare columns whose two values differ,
    each with the pair of the two values. *)
Theorem value_differences_exact (db_type : string) (pk_cols compare_cols : list string)
    (row : gmap string (cell V)) (e : gmap string (entry_val V))
    (d : gmap string (diff_val V)) (col : string) :
  is_t1_only pk_cols row = false → is_t2_only pk_cols row = false →
  reconcile_row db_type pk_cols compare_cols row = Some e →
  e !! "diffs" = Some (Diffs d) → col ≠ "_status" →
  d !! col =
    if decide (col ∈ compare_cols ∧ differs db_type row col = true)
    then Some (Pair (coerce db_type (py_get row ("t1_" ++ col)))
                    (coerce db_type (py_get row ("t2_" ++ col))))
    else None.
Proof.
  intros Hp1 Hp2. rewrite (reconcile_row_both _ _ _ _ Hp1 Hp2).
  destruct (dict_truthy _); [|done]. intros [= <-].
  rewrite lookup_insert_eq. intros [= <-] Hne.
  rewrite lookup_insert_ne by done. rewrite value_diff_fold_lookup.
  cbn [fst]. by rewrite lookup_empty.
Qed.

(** [compare_tables_internal], lines 354-387: when [!=] never holds between
    a value and itself (no NaN among the values), a row whose key and
    compare columns have the same value on both sides gives no entry. *)
Theorem identical_rows_dropped (db_type : string) (pk_cols compare_cols : list string)
    (row : gmap string (cell V)) :
  (∀ v : V, py_ne v v = false) →
  (∀ c, c ∈ (pk_cols ++ compare_cols)%list →
        py_get row ("t1_" ++ c) = py_get row ("t2_" ++ c)) →
  reconcile_row db_type pk_cols compare_cols row = None.
Proof.
  intros Hirr Hsame.
  assert (Hp1 : is_t1_only pk_cols row = false).
  { destruct (is_t1_only pk_cols row) eqn:Hp; [|done].
    apply is_t1_only_true in Hp as [Hall (pk & Hpk & Hsome)%Exists_exists].
    rewrite Forall_forall in Hall. destruct Hsome.
    rewrite Hsame by (apply elem_of_app; by left). by apply Hall. }
  assert (Hp2 : is_t2_only pk_cols row = false).
  { destruct (is_t2_only pk_cols row) eqn:Hp; [|done].
    apply is_t2_only_true in Hp as [Hall (pk & Hpk & Hsome)%Exists_exists].
    rewrite Forall_forall in Hall. destruct Hsome.
    rewrite <- Hsame by (apply elem_of_app; by left). by apply Hall. }
  rewrite (reconcile_row_both _ _ _ _ Hp1 Hp2).
  assert (Hempty : (foldl (value_diff_step db_type row) (∅, false) compare_cols).1 = ∅).
  { apply value_diff_fold_empty. intros col Hcol. unfold differs.
    rewrite Hsame by (apply elem_of_app; by right).
    destruct (coerce db_type (py_get row ("t2_" ++ col))) as [v|]; [apply Hirr|done]. }
  by rewrite Hempty.
Qed.

Lemma length_omap_le {A B} (f : A → option B) (l : list A) : (length (omap f l) ≤ length l)%nat.
Proof. induction l as [|a l IH]; [done|]. cbn. destruct (f a); cbn; lia. Qed.

(** [compare_tables_internal], lines 327-389: the rows that are reconciled
    are the answer of the database to the query that was built, and the
    comparison returns at most one entry for each of them.  With a limit
    [n], that query ends in " LIMIT n"; so when the database answers a
    query that ends in " LIMIT n" with at most [n] rows, the comparison
    returns at most [n] entries. *)
Theorem output_bounded_by_limit (set_iter : gset string → list string)
    (db_type : string) (conn : connection V) (table1_name table2_name : string)
    (pk_cols ignore_cols : list string) (scalar_casts : gmap string string)
    (limit : option Z) (out : list (gmap string (entry_val V))) :
  compare_tables_internal set_iter db_type conn table1_name table2_name
                          pk_cols ignore_cols scalar_casts limit = inr out →
  (∀ t1_cols_list t2_cols_list table1_sql_ref table2_sql_ref compare_cols query,
     resolve_tables db_type conn table1_name table2_name =
       inr (t1_cols_list, t2_cols_list, table1_sql_ref, table2_sql_ref) →
     build_query set_iter db_type t1_cols_list t2_cols_list table1_sql_ref table2_sql_ref
                 pk_cols ignore_cols scalar_casts limit = inr (compare_cols, query) →
     ∃ names rows,
       run_query conn query = inr (names, rows) ∧
       out = reconcile db_type pk_cols compare_cols names rows ∧
       (length out ≤ length rows)%nat) ∧
  (∀ n : Z,
     limit = Some n →
     (∀ q names rows,
        run_query conn (q ++ " LIMIT " ++ pretty n) = inr (names, rows) →
        (Z.of_nat (length rows) ≤ n)%Z) →
     (Z.of_nat (length out) ≤ n)%Z).
Proof.
  intros (t1 & t2 & r1 & r2 & query & names & rows & Hres & Hbuild & Hq & ->)
    %compare_tables_internal_inr.
  split.
  - intros t1' t2' r1' r2' cc query' Hres' Hbuild'.
    rewrite Hres in Hres'. injection Hres' as <- <- <- <-.
    rewrite Hbuild in Hbuild'. injection Hbuild' as <- <-.
    exists names, rows. split; [done|]. split; [done|]. apply length_omap_le.
  - intros n -> Hlimit.
    unfold build_query in Hbuild.
    apply bind_inr in Hbuild as (_ & _ & Hbuild).
    apply bind_inr in Hbuild as (exprs1 & _ & Hbuild).
    apply bind_inr in Hbuild as (exprs2 & _ & Hbuild).
    injection Hbuild as <-. unfold query_text in Hq.
    apply Hlimit in Hq.
    etrans; [|exact Hq]. apply Nat2Z.inj_le, length_omap_le.
Qed.

End MoreRowFacts.

Lemma value_differences_exact_witness :
  ∃ e d, reconcile_row "duckdb" ["id"] ["name"; "value"] null_row = Some e ∧
         e !! "diffs" = Some (Diffs d) ∧ d !! "value" = None ∧
         d !! "name" = Some (Pair None (Some (DStr "Al"))).
Proof.
  destruct (reconcile_row "duckdb" ["id"] ["name"; "value"] null_row) as [e|] eqn:He;
    [|vm_compute in He; discriminate He].
  destruct (e !! "diffs") as [[v|d]|] eqn:Hd;
    [vm_compute in He; injection He as <-; vm_compute in Hd; discriminate Hd
    | | vm_compute in He; injection He as <-; vm_compute in Hd; discriminate Hd].
  exists e, d. split; [reflexivity|]. split; [exact Hd|].
  pose proof (value_differences_exact "duckdb" ["id"] ["name"; "value"] null_row e d) as Hex.
  split.
  - rewrite (Hex "value"); [vm_compute; reflexivity|reflexivity|reflexivity|exact He
                            |exact Hd|discriminate].
  - rewrite (Hex "name"); [vm_compute; reflexivity|reflexivity|reflexivity|exact He
                           |exact Hd|discriminate].
Defined.

Lemma identical_rows_dropped_witness :
  reconcile_row "duckdb" ["id"] ["name"; "value"] same_row = None.
Proof.
  apply (identical_rows_dropped "duckdb" ["id"] ["name"; "value"] same_row).
  - intros [z|s|r]; cbn; [by rewrite Z.eqb_refl | by rewrite String.eqb_refl
                          | by rewrite String.eqb_refl].
  - intros c Hc.
    repeat (apply elem_of_cons in Hc as [->|Hc]; [vm_compute; reflexivity|]).
    by apply elem_of_nil in Hc.
Defined.

Lemma output_bounded_by_limit_witness :
  (Z.of_nat (length (reconcile "duckdb" ["id"] ["name"; "value"] demo_names demo_rows)) ≤ 3)%Z.
Proof.
  refine (proj2 (output_bounded_by_limit elements "duckdb" demo_conn "table_A" "table_B"
                   ["id"] [] ∅ (Some 3%Z)
                   (reconcile "duckdb" ["id"] ["name"; "value"] demo_names demo_rows) _)
                3%Z eq_refl _).
  - vm_compute. reflexivity.
  - intros q names rows Hq. cbn in Hq. injection Hq as <- <-. vm_compute. discriminate.
Defined.
